(** * Escalation service of the support-chat backend

    A shallow embedding of [src/backend/src/services/escalation_service.py]
    (class [EscalationService]), of the two ORM tables it works on
    ([src/backend/src/models/user.py], [src/backend/src/models/session.py])
    and of the endpoints that call it.

    - A Python [str] is the string of its UTF-8 bytes; concatenation and the
      substring test are the same on both sides.  Ids are UUIDs in text
      form, as the UUID columns they are compared with require.
    - The two tables are finite maps keyed by their primary key, with the
      columns the service reads or writes; of [users], the column
      [updated_at], which the ORM rewrites on every UPDATE, is not among
      them.
    - Every service method takes the database and returns the database after
      its [commit] together with the dict it returns, as a tagged result.  A
      write the store rejects, or an exception before the commit, takes the
      [except] arm: rollback, the store as it was, and a failure dict.
    - [datetime.utcnow()] is an argument: the reading of the clock taken by
      the call. *)

From Stdlib Require Import Ascii String QArith Qminmax DecimalString.
From stdpp Require Import gmap strings list fin_maps sorting.

Local Open Scope Z_scope.
Local Open Scope string_scope.

(** ** Keyword detector *)

Module Detector.

(** [DEFAULT_ESCALATION_KEYWORDS], in the order of the class attribute. *)
Definition DEFAULT_ESCALATION_KEYWORDS : list string :=
  [ "urgent"; "emergency"; "asap"; "immediately"; "critical";
    "help"; "assistant"; "support";
    "angry"; "frustrated"; "upset"; "annoyed"; "irritated";
    "unacceptable"; "ridiculous"; "terrible"; "awful";
    "broken"; "crash"; "error"; "not working"; "fail";
    "down"; "offline"; "issue"; "problem";
    "manager"; "supervisor"; "escalate"; "escalation";
    "speak to"; "talk to"; "human"; "person" ].

(** Text made of ASCII characters only (every byte below 128). *)
Definition is_ascii_char (c : ascii) : bool := (N_of_ascii c <? 128)%N.

Fixpoint is_ascii (s : string) : bool :=
  match s with
  | EmptyString => true
  | String c s' => is_ascii_char c && is_ascii s'
  end.

(** Lower case on ASCII text: the capitals A..Z move up by 32. *)
Definition ascii_lower_char (c : ascii) : ascii :=
  let n := N_of_ascii c in
  if ((65 <=? n) && (n <=? 90))%N then ascii_of_N (n + 32) else c.

Fixpoint ascii_lower (s : string) : string :=
  match s with
  | EmptyString => EmptyString
  | String c s' => String (ascii_lower_char c) (ascii_lower s')
  end.

(** [str.lower] is a builtin of the language and follows the Unicode case
    tables, which are no part of the repository: it is an interface.  What
    is fixed is its value on ASCII text. *)
Class StrLower := {
  str_lower : string → string;
  str_lower_ascii : ∀ s, is_ascii s = true → str_lower s = ascii_lower s
}.

Fixpoint starts_with (p s : string) : bool :=
  match p, s with
  | EmptyString, _ => true
  | String a p', String b s' => Ascii.eqb a b && starts_with p' s'
  | String _ _, EmptyString => false
  end.

(** [needle in hay] on Python strings. *)
Fixpoint contains (needle hay : string) : bool :=
  starts_with needle hay ||
  match hay with
  | EmptyString => false
  | String _ hay' => contains needle hay'
  end.

(** [', '.join(l)] *)
Fixpoint join (sep : string) (l : list string) : string :=
  match l with
  | [] => ""
  | [x] => x
  | x :: rest => x ++ sep ++ join sep rest
  end.

(** [str(n)] for a length. *)
Definition str_of_nat (n : nat) : string :=
  NilEmpty.string_of_uint (Nat.to_uint n).

Record Detection := {
  should_escalate : bool;
  detected_keywords : list string;
  confidence : Q;
  reason : option string
}.

(** The keywords scanned: a copy of the defaults, extended with the custom
    ones when the argument is a non-empty list ([if custom_keywords:]). *)
Definition keywords_to_check (custom_keywords : option (list string))
  : list string :=
  match custom_keywords with
  | Some (k :: ks) => DEFAULT_ESCALATION_KEYWORDS ++ (k :: ks)
  | Some [] | None => DEFAULT_ESCALATION_KEYWORDS
  end.

(** [min(len(detected) / 3.0, 1.0)], the quotient taken as an exact
    rational (the float of the source is its rounding). *)
Definition confidence_of (n : nat) : Q :=
  Qmin (Z.of_nat n # 3) 1.

Definition reason_of (detected : list string) : string :=
  "Detected " ++ str_of_nat (length detected)
    ++ " escalation keyword(s): " ++ join ", " (take 3 detected).

Section WithLower.
Context {lowering : StrLower}.

(** The loop of lines 73-76: the keywords whose lower-cased form occurs in
    the lower-cased message, in scanning order, as they were given. *)
Definition detect_loop (message_lower : string) (kws : list string)
  : list string :=
  List.filter (fun keyword => contains (str_lower keyword) message_lower) kws.

Definition detect_auto_escalation
    (message : string) (custom_keywords : option (list string)) : Detection :=
  let message_lower := str_lower message in
  let detected := detect_loop message_lower (keywords_to_check custom_keywords) in
  let should := (0 <? length detected)%nat in
  {| should_escalate := should;
     detected_keywords := detected;
     confidence := confidence_of (length detected);
     reason := if should then Some (reason_of detected) else None |}.

End WithLower.

(** A [str.lower] for evaluation on examples: ASCII capitals are lowered,
    every other byte stays. *)
Definition ascii_str_lower (s : string) : string :=
  if is_ascii s then ascii_lower s else s.

Definition ascii_only : StrLower.
Proof.
  refine {| str_lower := ascii_str_lower |}.
  intros s Hs. unfold ascii_str_lower. rewrite Hs. reflexivity.
Defined.

End Detector.

(** ** The two tables *)

Module Store.

(** Values of [ChatSession.escalation_status] ('none' is the column default). *)
Inductive EscalationStatus := st_none | st_pending | st_assigned | st_resolved.

(** Values of [User.supporter_status] ('offline' is the column default). *)
Inductive SupporterStatus := online | available | busy | away | offline.

(** Values of [User.role]. *)
Inductive Role := supporter | admin | tenant_user.

#[global] Instance EscalationStatus_eq_dec : EqDecision EscalationStatus.
Proof. solve_decision. Defined.
#[global] Instance SupporterStatus_eq_dec : EqDecision SupporterStatus.
Proof. solve_decision. Defined.
#[global] Instance Role_eq_dec : EqDecision Role.
Proof. solve_decision. Defined.

(** A row of [users] without its key [user_id]; only the columns the
    service reads or writes. *)
Record User := {
  u_tenant_id : string;
  username : string;
  display_name : option string;
  role : Role;
  supporter_status : SupporterStatus;
  max_concurrent_sessions : Z;
  current_sessions_count : Z
}.

(** The JSON values that are true in a test and are no objects. *)
Inductive JsonKind := json_array | json_string | json_int | json_float | json_true.

(** The JSONB column [metadata], as far as the service can tell its values
    apart: a value that is false in a test (NULL, an empty object, array or
    string, a zero, false), an object with entries, or another value.  The
    entries themselves are never read by the service. *)
Inductive Metadata :=
| meta_falsy
| meta_object
| meta_other (kind : JsonKind).

#[global] Instance JsonKind_eq_dec : EqDecision JsonKind.
Proof. solve_decision. Defined.
#[global] Instance Metadata_eq_dec : EqDecision Metadata.
Proof. solve_decision. Defined.

(** A row of [sessions] without its key [session_id]. *)
Record ChatSession := {
  s_tenant_id : string;
  assigned_user_id : option string;
  escalation_status : EscalationStatus;
  escalation_reason : option string;
  escalation_requested_at : option Z;
  escalation_assigned_at : option Z;
  session_metadata : Metadata
}.

Record DB := {
  users : gmap string User;
  sessions : gmap string ChatSession
}.

Definition set_count (c : Z) (u : User) : User :=
  {| u_tenant_id := u_tenant_id u; username := username u;
     display_name := display_name u; role := role u;
     supporter_status := supporter_status u;
     max_concurrent_sessions := max_concurrent_sessions u;
     current_sessions_count := c |}.

(** The three columns written by lines 170-172; [why] is the reason as the
    column stores it. *)
Definition set_escalated (why : string) (now : Z) (s : ChatSession) : ChatSession :=
  {| s_tenant_id := s_tenant_id s; assigned_user_id := assigned_user_id s;
     escalation_status := st_pending; escalation_reason := Some why;
     escalation_requested_at := Some now;
     escalation_assigned_at := escalation_assigned_at s;
     session_metadata := session_metadata s |}.

(** The three columns written by lines 346-348. *)
Definition set_assigned (user_id : string) (now : Z) (s : ChatSession) : ChatSession :=
  {| s_tenant_id := s_tenant_id s; assigned_user_id := Some user_id;
     escalation_status := st_assigned; escalation_reason := escalation_reason s;
     escalation_requested_at := escalation_requested_at s;
     escalation_assigned_at := Some now;
     session_metadata := session_metadata s |}.

(** The column written by line 445. *)
Definition set_resolved (s : ChatSession) : ChatSession :=
  {| s_tenant_id := s_tenant_id s; assigned_user_id := assigned_user_id s;
     escalation_status := st_resolved; escalation_reason := escalation_reason s;
     escalation_requested_at := escalation_requested_at s;
     escalation_assigned_at := escalation_assigned_at s;
     session_metadata := session_metadata s |}.

Definition set_metadata (m : Metadata) (s : ChatSession) : ChatSession :=
  {| s_tenant_id := s_tenant_id s; assigned_user_id := assigned_user_id s;
     escalation_status := escalation_status s;
     escalation_reason := escalation_reason s;
     escalation_requested_at := escalation_requested_at s;
     escalation_assigned_at := escalation_assigned_at s;
     session_metadata := m |}.

(** *** What the store accepts *)

(** Text with the character NUL, which PostgreSQL stores in no text or JSONB
    value. *)
Fixpoint has_nul (s : string) : bool :=
  match s with
  | EmptyString => false
  | String c s' => (N_of_ascii c =? 0)%N || has_nul s'
  end.

(** The first byte of a character in UTF-8: any byte that is not of the form
    10xxxxxx. *)
Definition starts_char (c : ascii) : bool :=
  let n := N_of_ascii c in negb ((128 <=? n) && (n <? 192))%N.

(** [len(s)]: the number of characters. *)
Fixpoint char_length (s : string) : nat :=
  match s with
  | EmptyString => 0
  | String c s' => (if starts_char c then 1 else 0) + char_length s'
  end.

(** The text split after its first [n] characters. *)
Fixpoint split_chars (n : nat) (s : string) : string * string :=
  match s with
  | EmptyString => (EmptyString, EmptyString)
  | String c s' =>
      if starts_char c then
        match n with
        | O => (EmptyString, s)
        | S n' => let '(a, b) := split_chars n' s' in (String c a, b)
        end
      else let '(a, b) := split_chars n s' in (String c a, b)
  end.

Fixpoint all_spaces (s : string) : bool :=
  match s with
  | EmptyString => true
  | String c s' => (N_of_ascii c =? 32)%N && all_spaces s'
  end.

(** What a VARCHAR(n) column stores for a text, if it takes it: the text up
    to [n] characters; a longer text only when what exceeds is spaces, and
    then cut to [n] characters; no text with NUL. *)
Definition varchar (n : nat) (s : string) : option string :=
  if has_nul s then None
  else
    let '(kept, excess) := split_chars n s in
    if all_spaces excess then Some kept else None.

(** [escalation_reason = Column(String(500))] *)
Definition REASON_WIDTH : nat := 500.

(** A text inside a JSONB value. *)
Definition jsonb_text (s : string) : bool := negb (has_nul s).

(** An UPDATE of one row by primary key: no row, nothing written. *)
Definition update_user (user_id : string) (f : User → User) (db : DB) : DB :=
  {| users := alter f user_id (users db); sessions := sessions db |}.

Definition update_session (session_id : string) (f : ChatSession → ChatSession)
    (db : DB) : DB :=
  {| users := users db; sessions := alter f session_id (sessions db) |}.

(** [db.query(ChatSession).filter(and_(session_id == .., tenant_id == ..)).first()] *)
Definition query_session (db : DB) (session_id tenant_id : string)
  : option ChatSession :=
  match sessions db !! session_id with
  | Some s => if decide (s_tenant_id s = tenant_id) then Some s else None
  | None => None
  end.

(** [db.query(User).filter(and_(user_id == .., tenant_id == .., role == 'supporter')).first()] *)
Definition query_supporter (db : DB) (user_id tenant_id : string) : option User :=
  match users db !! user_id with
  | Some u =>
      if decide (u_tenant_id u = tenant_id) then
        if decide (role u = supporter) then Some u else None
      else None
  | None => None
  end.

(** [db.query(User).filter(User.user_id == ..).first()] (line 431). *)
Definition query_user_by_id (db : DB) (user_id : string) : option User :=
  users db !! user_id.

(** [status in ['online', 'available']] *)
Definition is_available (st : SupporterStatus) : bool :=
  match st with
  | online | available => true
  | busy | away | offline => false
  end.

End Store.

(** ** The service methods *)

Module Service.
Import Store.

(** The exceptions that reach the [except Exception] arms. *)
Inductive Exn :=
| ItemAssignmentError (kind : JsonKind)
    (* TypeError: the metadata value takes no item assignment *)
| StatementError (session_id : string) (texts : list string).
    (* the error of the driver: the store rejects the UPDATE of this session
       with these text parameters *)

(** The failure dicts [{"success": False, "error": ...}], one constructor per
    message, carrying what the message interpolates. *)
Inductive Error :=
| SessionNotFound                          (* "Session not found" *)
| AlreadyEscalated (st : EscalationStatus) (* "Session already escalated with status: .." *)
| CannotBeAssigned (st : EscalationStatus) (* "Session cannot be assigned (status: ..)" *)
| UserNotFound       (* "User not found, not a supporter, or does not belong to this tenant" *)
| StaffNotAvailable (st : SupporterStatus) (* "Staff member not available (status: ..). .." *)
| StaffAtCapacity (count max : Z)          (* "Staff member at capacity (../..). .." *)
| NotEscalated                             (* "Session is not escalated" *)
| EscalateFailed (e : Exn)                 (* "Failed to escalate session: .." *)
| ResolveFailed (e : Exn).                 (* "Failed to resolve escalation: .." *)

Inductive Result (A : Type) :=
| Ok (a : A)
| Failure (e : Error).
Arguments Ok {A} a.
Arguments Failure {A} e.

Definition success {A} (r : Result A) : bool :=
  match r with Ok _ => true | Failure _ => false end.

Record AssignOk := {
  a_session_id : string;
  a_assigned_user_id : string;
  a_escalation_status : EscalationStatus;
  a_escalation_assigned_at : Z;
  staff_current_sessions : Z;
  staff_max_sessions : Z
}.

Record EscalateOk := {
  e_session_id : string;
  e_escalation_status : EscalationStatus;
  e_escalation_requested_at : option Z;
  auto_assigned : bool;
  e_assigned_user_id : option string;
  e_assigned_user_name : option string
}.

Record ResolveOk := {
  r_session_id : string;
  r_escalation_status : EscalationStatus
}.

(** [status not in ['pending', 'assigned']] is the negation of this. *)
Definition assignable (st : EscalationStatus) : bool :=
  match st with
  | st_pending | st_assigned => true
  | st_none | st_resolved => false
  end.

(** *** assign_user *)

(** Lines 298-343: the two rows are loaded and the guards are run on what
    was loaded. *)
Definition assign_check (db : DB) (session_id tenant_id user_id : string)
  : Result (ChatSession * User) :=
  match query_session db session_id tenant_id with
  | None => Failure SessionNotFound
  | Some session =>
      if negb (assignable (escalation_status session)) then
        Failure (CannotBeAssigned (escalation_status session))
      else
        match query_supporter db user_id tenant_id with
        | None => Failure UserNotFound
        | Some user =>
            if negb (is_available (supporter_status user)) then
              Failure (StaffNotAvailable (supporter_status user))
            else if (max_concurrent_sessions user <=? current_sessions_count user)%Z then
              Failure (StaffAtCapacity (current_sessions_count user)
                                       (max_concurrent_sessions user))
            else Ok (session, user)
        end
  end.

(** Lines 346-355: the loaded objects are changed and flushed.  The session
    row gets its three columns; the user row gets the counter that was
    loaded, plus one ([user.current_sessions_count += 1] on the object). *)
Definition assign_commit (now : Z) (session_id user_id : string)
    (loaded : ChatSession * User) (db : DB) : DB :=
  update_user user_id (set_count (current_sessions_count (loaded.2) + 1))
    (update_session session_id (set_assigned user_id now) db).

Definition assign_ok (now : Z) (session_id user_id : string)
    (loaded : ChatSession * User) : AssignOk :=
  {| a_session_id := session_id;
     a_assigned_user_id := user_id;
     a_escalation_status := st_assigned;
     a_escalation_assigned_at := now;
     staff_current_sessions := current_sessions_count (loaded.2) + 1;
     staff_max_sessions := max_concurrent_sessions (loaded.2) |}.

Definition assign_user (now : Z) (db : DB) (session_id tenant_id user_id : string)
  : DB * Result AssignOk :=
  match assign_check db session_id tenant_id user_id with
  | Failure e => (db, Failure e)
  | Ok loaded =>
      (assign_commit now session_id user_id loaded db,
       Ok (assign_ok now session_id user_id loaded))
  end.

(** *** resolve_escalation *)

(** Lines 430-442: release of the assignee's counter. *)
Definition release_assignee (session : ChatSession) (db : DB) : DB :=
  match assigned_user_id session with
  | None => db
  | Some uid =>
      match query_user_by_id db uid with
      | Some assigned_user =>
          if (0 <? current_sessions_count assigned_user)%Z then
            update_user uid
              (set_count (current_sessions_count assigned_user - 1)) db
          else db
      | None => db
      end
  end.

(** Lines 176-182 and 448-453: one entry is written into the metadata.  A
    value that is false in a test is replaced by a new dict, which the ORM
    flushes; an object with entries is changed in place, which the ORM does
    not notice, so nothing of it is flushed; any other value raises. *)
Definition write_metadata (m : Metadata) : Exn + (Metadata * bool) :=
  match m with
  | meta_falsy => inr (meta_object, true)
  | meta_object => inr (meta_object, false)
  | meta_other kind => inl (ItemAssignmentError kind)
  end.

(** Lines 448-456: the metadata of the resolved row, or the exception of
    the item assignment or of the commit. *)
Definition resolved_metadata (session_id : string) (session : ChatSession)
    (resolution_notes : option string) : Exn + Metadata :=
  match write_metadata (session_metadata session) with
  | inl e => inl e
  | inr (meta, flushed) =>
      let texts := if flushed then option_list resolution_notes else [] in
      if forallb jsonb_text texts then inr meta
      else inl (StatementError session_id texts)
  end.

Definition resolve_escalation (db : DB) (session_id tenant_id : string)
    (resolution_notes : option string) : DB * Result ResolveOk :=
  match query_session db session_id tenant_id with
  | None => (db, Failure SessionNotFound)
  | Some session =>
      if decide (escalation_status session = st_none) then
        (db, Failure NotEscalated)
      else
        match resolved_metadata session_id session resolution_notes with
        | inl e => (db, Failure (ResolveFailed e))
        | inr meta =>
            (update_session session_id
               (fun s => set_metadata meta (set_resolved s))
               (release_assignee session db),
             Ok {| r_session_id := session_id;
                   r_escalation_status := st_resolved |})
        end
  end.

(** *** find_available_staff *)

Definition eligible (tenant_id : string) (u : User) : bool :=
  bool_decide (u_tenant_id u = tenant_id)
  && bool_decide (role u = supporter)
  && is_available (supporter_status u)
  && (current_sessions_count u <? max_concurrent_sessions u)%Z.

(** [ORDER BY current_sessions_count ASC] *)
Definition by_load (a b : string * User) : Prop :=
  (current_sessions_count (a.2) ≤ current_sessions_count (b.2))%Z.

#[global] Instance by_load_dec a b : Decision (by_load a b).
Proof. unfold by_load. apply _. Defined.

(** The rows come back with their key. *)
Definition find_available_staff (db : DB) (tenant_id : string)
  : list (string * User) :=
  merge_sort by_load
    (List.filter (fun r => eligible tenant_id (r.2)) (map_to_list (users db))).

(** *** escalate_session *)

(** [best_supporter.display_name or best_supporter.username] *)
Definition name_of (u : User) : string :=
  match display_name u with
  | Some n => if decide (n = "") then username u else n
  | None => username u
  end.

(** Lines 192-231: one attempt, on the head of the candidate list.
    [now_assign] is the clock as the nested [assign_user] reads it. *)
Definition auto_assign (now_assign : Z) (db : DB) (session_id tenant_id : string)
  : DB * option (string * string) :=
  match find_available_staff db tenant_id with
  | [] => (db, None)
  | best_supporter :: _ =>
      match assign_user now_assign db session_id tenant_id (best_supporter.1) with
      | (db', Ok _) => (db', Some (best_supporter.1, name_of (best_supporter.2)))
      | (db', Failure _) => (db', None)
      end
  end.

(** Lines 170-185: the reason as the column stores it and the metadata of
    the escalated row, or the exception of the item assignment or of the
    commit. *)
Definition escalated_columns (session_id : string) (session : ChatSession)
    (reason : string) (auto_detected : bool) (keywords : option (list string))
  : Exn + (string * Metadata) :=
  match (if auto_detected then write_metadata (session_metadata session)
         else inr (session_metadata session, false)) with
  | inl e => inl e
  | inr (meta, flushed) =>
      let texts := if flushed then default [] keywords else [] in
      match varchar REASON_WIDTH reason with
      | Some stored =>
          if forallb jsonb_text texts then inr (stored, meta)
          else inl (StatementError session_id (reason :: texts))
      | None => inl (StatementError session_id (reason :: texts))
      end
  end.

Definition escalate_session (now now_assign : Z) (db : DB)
    (session_id tenant_id reason : string)
    (auto_detected : bool) (keywords : option (list string))
  : DB * Result EscalateOk :=
  match query_session db session_id tenant_id with
  | None => (db, Failure SessionNotFound)
  | Some session =>
      if decide (escalation_status session ≠ st_none) then
        (db, Failure (AlreadyEscalated (escalation_status session)))
      else
        match escalated_columns session_id session reason auto_detected
                keywords with
        | inl e => (db, Failure (EscalateFailed e))
        | inr (stored, meta) =>
            let escalated s := set_metadata meta (set_escalated stored now s) in
            let db1 := update_session session_id escalated db in
            let '(db2, assigned) :=
              auto_assign now_assign db1 session_id tenant_id in
            (* db.refresh(session) *)
            let refreshed := default (escalated session)
                                     (sessions db2 !! session_id) in
            (db2,
             Ok {| e_session_id := session_id;
                   e_escalation_status := escalation_status refreshed;
                   e_escalation_requested_at :=
                     escalation_requested_at refreshed;
                   auto_assigned := bool_decide (is_Some assigned);
                   e_assigned_user_id := fst <$> assigned;
                   e_assigned_user_name := snd <$> assigned |})
        end
  end.

(** *** Sequences of calls *)

Inductive Op :=
| Escalate (now now_assign : Z) (session_id tenant_id reason : string)
           (auto_detected : bool) (keywords : option (list string))
| Assign (now : Z) (session_id tenant_id user_id : string)
| Resolve (session_id tenant_id : string) (resolution_notes : option string).

Definition exec (o : Op) (db : DB) : DB :=
  match o with
  | Escalate now now_assign sid tid why auto kws =>
      (escalate_session now now_assign db sid tid why auto kws).1
  | Assign now sid tid uid => (assign_user now db sid tid uid).1
  | Resolve sid tid notes => (resolve_escalation db sid tid notes).1
  end.

Definition run (ops : list Op) (db : DB) : DB :=
  foldl (fun d o => exec o d) db ops.

End Service.

(** ** Two assignments running at once *)

Module Interleaving.
Import Store Service.

(** A request in [assign_user]: before its queries, holding the rows it has
    loaded, or returned. *)
Inductive Request :=
| Start (session_id tenant_id user_id : string)
| Loaded (session_id user_id : string) (rows : ChatSession * User)
| Returned (r : Result AssignOk).

(** One atomic step of a request against the shared store: the reads and
    guards, then the flush and commit. *)
Definition step (now : Z) (db : DB) (r : Request) : DB * Request :=
  match r with
  | Start sid tid uid =>
      match assign_check db sid tid uid with
      | Ok rows => (db, Loaded sid uid rows)
      | Failure e => (db, Returned (Failure e))
      end
  | Loaded sid uid rows =>
      (assign_commit now sid uid rows db, Returned (Ok (assign_ok now sid uid rows)))
  | Returned res => (db, Returned res)
  end.

(** A schedule names, step by step, which request moves. *)
Fixpoint run_schedule (now : Z) (schedule : list nat) (db : DB)
    (reqs : list Request) : DB * list Request :=
  match schedule with
  | [] => (db, reqs)
  | i :: rest =>
      match reqs !! i with
      | Some r =>
          let '(db', r') := step now db r in
          run_schedule now rest db' (<[i := r']> reqs)
      | None => run_schedule now rest db reqs
      end
  end.

End Interleaving.

(** ** Invariants and concrete stores *)

Module Props.
Import Store Service.

(** [0 <= current_sessions_count <= max_concurrent_sessions] on every row. *)
Definition load_bound (db : DB) : Prop :=
  map_Forall (fun _ u => 0 ≤ current_sessions_count u ≤ max_concurrent_sessions u)%Z
             (users db).

(** [assigned_user_id] is set exactly on the sessions in status 'assigned'. *)
Definition assignee_iff_assigned (db : DB) : Prop :=
  map_Forall (fun _ s => is_Some (assigned_user_id s)
                          ↔ escalation_status s = st_assigned)
             (sessions db).

(** What the service keeps instead: an assigned session has an assignee, and
    only assigned and resolved sessions have one. *)
Definition assignee_tracks_status (db : DB) : Prop :=
  map_Forall (fun _ s =>
      (escalation_status s = st_assigned → is_Some (assigned_user_id s))
      ∧ (is_Some (assigned_user_id s) →
           escalation_status s = st_assigned ∨ escalation_status s = st_resolved))
    (sessions db).

(** The sessions that occupy a slot of [user_id]: assigned to them. *)
Definition sessions_assigned_to (db : DB) (user_id : string) : list string :=
  (List.filter
     (fun r => bool_decide (escalation_status (r.2) = st_assigned)
               && bool_decide (assigned_user_id (r.2) = Some user_id))
     (map_to_list (sessions db))).*1.

Definition count_of (db : DB) (user_id : string) : option Z :=
  current_sessions_count <$> users db !! user_id.

Definition status_of (db : DB) (session_id : string) : option EscalationStatus :=
  escalation_status <$> sessions db !! session_id.

Definition assignee_of (db : DB) (session_id : string) : option string :=
  sessions db !! session_id ≫= assigned_user_id.

End Props.

Module Examples.
Import Store Service.

Definition staff (tenant name : string) (st : SupporterStatus) (max count : Z)
  : User :=
  {| u_tenant_id := tenant; username := name; display_name := None;
     role := supporter; supporter_status := st;
     max_concurrent_sessions := max; current_sessions_count := count |}.

Definition chat (tenant : string) (assignee : option string)
    (st : EscalationStatus) : ChatSession :=
  {| s_tenant_id := tenant; assigned_user_id := assignee;
     escalation_status := st; escalation_reason := None;
     escalation_requested_at := None; escalation_assigned_at := None;
     session_metadata := meta_falsy |}.

(** Tenant T with S1 (max 1, free) and S2 (max 1, full), two fresh sessions. *)
Definition db_scenario : DB :=
  {| users := <["S1" := staff "T" "s1" online 1 0]>
              (<["S2" := staff "T" "s2" online 1 1]> ∅);
     sessions := <["A" := chat "T" None st_none]>
                 (<["B" := chat "T" None st_none]> ∅) |}.

(** S1 serves the two sessions A and B. *)
Definition db_two_assigned : DB :=
  {| users := <["S1" := staff "T" "s1" online 5 2]> ∅;
     sessions := <["A" := chat "T" (Some "S1") st_assigned]>
                 (<["B" := chat "T" (Some "S1") st_assigned]> ∅) |}.

(** Session X is served by SA; SB is free. *)
Definition db_reassign : DB :=
  {| users := <["SA" := staff "T" "a" online 5 1]>
              (<["SB" := staff "T" "b" online 5 0]> ∅);
     sessions := <["X" := chat "T" (Some "SA") st_assigned]> ∅ |}.

(** One free slot on S1, two pending sessions. *)
Definition db_last_slot : DB :=
  {| users := <["S1" := staff "T" "s1" online 1 0]> ∅;
     sessions := <["A" := chat "T" None st_pending]>
                 (<["B" := chat "T" None st_pending]> ∅) |}.

(** S2 is full: no candidate for the fresh session A. *)
Definition db_no_candidate : DB :=
  {| users := <["S2" := staff "T" "s2" online 1 1]> ∅;
     sessions := <["A" := chat "T" None st_none]> ∅ |}.

(** [s * n] *)
Fixpoint times (n : nat) (s : string) : string :=
  match n with
  | O => ""
  | S n' => s ++ times n' s
  end.

(** Notes with a NUL character. *)
Definition nul_notes : string := String (ascii_of_N 0) "".

(** A reason of 501 characters, one more than the column takes. *)
Definition long_reason : string := times 501 "x".

(** Session X of tenant T1 carries an assignee of tenant T2. *)
Definition db_cross_tenant : DB :=
  {| users := <["U2" := staff "T2" "u2" online 5 1]> ∅;
     sessions := <["X" := chat "T1" (Some "U2") st_assigned]> ∅ |}.

End Examples.

Import Detector Store Service Interleaving Props Examples.

(** ** The escalation queue *)

Module Queue.
Import Store Service.

(** The dict returned by [get_escalation_queue] on success. *)
Record EscalationQueue := {
  pending_count : nat;
  assigned_count : nat;
  resolved_count : nat;
  escalations : list (string * ChatSession)
}.

(** The WHERE clause of lines 550-558: the tenant's sessions that are not
    'none', narrowed to one status when the [status] argument is given.  The
    argument is one of the four status values here. *)
Definition in_queue (tenant_id : string) (status : option EscalationStatus)
    (r : string * ChatSession) : bool :=
  bool_decide (s_tenant_id (r.2) = tenant_id)
  && bool_decide (escalation_status (r.2) ≠ st_none)
  && match status with
     | Some st => bool_decide (escalation_status (r.2) = st)
     | None => true
     end.

(** [ORDER BY escalation_requested_at DESC]; rows without a stamp come
    first, as PostgreSQL places NULL in a descending order. *)
Definition requested_desc (a b : string * ChatSession) : bool :=
  match escalation_requested_at (a.2), escalation_requested_at (b.2) with
  | None, _ => true
  | Some _, None => false
  | Some x, Some y => (y <=? x)%Z
  end.

Definition by_requested_desc (a b : string * ChatSession) : Prop :=
  requested_desc a b = true.

#[global] Instance by_requested_desc_dec a b : Decision (by_requested_desc a b).
Proof. unfold by_requested_desc. apply _. Defined.

(** The [.count()] queries of lines 565-584. *)
Definition count_status (db : DB) (tenant_id : string) (st : EscalationStatus)
  : nat :=
  length (List.filter
            (fun r => bool_decide (s_tenant_id (r.2) = tenant_id)
                      && bool_decide (escalation_status (r.2) = st))
            (map_to_list (sessions db))).

Definition get_escalation_queue (db : DB) (tenant_id : string)
    (status : option EscalationStatus) : EscalationQueue :=
  {| pending_count := count_status db tenant_id st_pending;
     assigned_count := count_status db tenant_id st_assigned;
     resolved_count := count_status db tenant_id st_resolved;
     escalations :=
       merge_sort by_requested_desc
         (List.filter (in_queue tenant_id status) (map_to_list (sessions db))) |}.

End Queue.

(** ** The endpoints that call the service *)

(** [src/backend/src/api/admin/escalation.py] and [src/backend/src/api/chat.py].
    The [tenants] table is the set of its keys; the JWT dependency has run
    and left its payload ([roles], [sub]); a raised [HTTPException] is the
    left summand of the result.  Response fields that repeat columns outside
    the rows above (email, created_at, ...) are left out. *)
Module Api.
Import Detector Store Service.

Inductive HTTPException := HTTP (status_code : Z) (detail : string).

(** [str] of the column values. *)
Definition status_name (st : EscalationStatus) : string :=
  match st with
  | st_none => "none"
  | st_pending => "pending"
  | st_assigned => "assigned"
  | st_resolved => "resolved"
  end.

Definition supporter_status_name (st : SupporterStatus) : string :=
  match st with
  | online => "online"
  | available => "available"
  | busy => "busy"
  | away => "away"
  | offline => "offline"
  end.

Definition str_of_Z (z : Z) : string := NilZero.string_of_int (Z.to_int z).

(** [str(e)] of an exception is worded by the interpreter and the database
    driver, which are no part of the repository: it is an interface, and
    what is proved about a text holds for every wording. *)
Class ExceptionText := { str_exception : Exn → string }.

Section WithPlatform.
Context {lowering : StrLower} {wording : ExceptionText}.

(** The ["error"] entry of the failure dicts of the service. *)
Definition error_message (e : Error) : string :=
  match e with
  | SessionNotFound => "Session not found"
  | AlreadyEscalated st =>
      "Session already escalated with status: " ++ status_name st
  | CannotBeAssigned st =>
      "Session cannot be assigned (status: " ++ status_name st ++ ")"
  | UserNotFound =>
      "User not found, not a supporter, or does not belong to this tenant"
  | StaffNotAvailable st =>
      "Staff member not available (status: " ++ supporter_status_name st
        ++ "). Current status must be 'online'"
  | StaffAtCapacity count max =>
      "Staff member at capacity (" ++ str_of_Z count ++ "/" ++ str_of_Z max
        ++ "). Cannot assign more sessions."
  | NotEscalated => "Session is not escalated"
  | EscalateFailed e => "Failed to escalate session: " ++ str_exception e
  | ResolveFailed e => "Failed to resolve escalation: " ++ str_exception e
  end.

(** [str(session.assigned_user_id)] *)
Definition str_of_assignee (a : option string) : string := default "None" a.

(** ["supporter" in user_roles and "admin" not in user_roles] *)
Definition supporter_only (roles : list string) : bool :=
  bool_decide ("supporter" ∈ roles) && negb (bool_decide ("admin" ∈ roles)).

(** POST /tenants/{tenant_id}/escalations/resolve (admin/escalation.py,
    lines 324-450).  On success the response repeats the refreshed row. *)
Definition resolve_endpoint (tenants : gset string) (db : DB)
    (tenant_id : string) (roles : list string) (sub : option string)
    (session_id : string) (resolution_notes : option string)
  : DB * (HTTPException + ChatSession) :=
  if decide (tenant_id ∈ tenants) then
    match sessions db !! session_id with
    | None => (db, inl (HTTP 404 "Session not found"))
    | Some session =>
        if supporter_only roles
           && negb (bool_decide (Some (str_of_assignee (assigned_user_id session))
                                 = sub))
        then (db, inl (HTTP 403
                         "Supporters can only resolve sessions assigned to them"))
        else
          match resolve_escalation db session_id tenant_id resolution_notes with
          | (db', Failure e) => (db', inl (HTTP 400 (error_message e)))
          | (db', Ok _) =>
              (db', inr (default session (sessions db' !! session_id)))
          end
    end
  else (db, inl (HTTP 404 "Tenant not found")).

Record PublicEscalationResponse := {
  p_success : bool;
  p_session_id : string;
  p_escalation_status : EscalationStatus;
  p_message : string
}.

(** [status_messages.get(session.escalation_status, ...)] *)
Definition status_message (st : EscalationStatus) : string :=
  match st with
  | st_pending => "Yêu cầu hỗ trợ đang chờ xử lý"
  | st_assigned => "Đã có nhân viên được phân công hỗ trợ"
  | st_resolved => "Yêu cầu hỗ trợ đã được giải quyết"
  | st_none => "Yêu cầu hỗ trợ đang được xử lý"
  end.

(** POST /{tenant_id}/session/{session_id}/escalate (chat.py, lines
    841-967); [request_session_id] and [reason] are the request body. *)
Definition public_escalate_session (tenants : gset string) (now now_assign : Z)
    (db : DB) (tenant_id session_id request_session_id reason : string)
  : DB * (HTTPException + PublicEscalationResponse) :=
  if decide (tenant_id ∈ tenants) then
    if decide (request_session_id ≠ session_id) then
      (db, inl (HTTP 400
                  "Session ID in path must match session ID in request body"))
    else
      match query_session db session_id tenant_id with
      | None =>
          (db, inl (HTTP 404
                      "Session not found or does not belong to this tenant"))
      | Some session =>
          match escalate_session now now_assign db session_id tenant_id reason
                  false None with
          | (db', Failure e) =>
              if contains "already escalated" (str_lower (error_message e)) then
                (db', inr {| p_success := true;
                             p_session_id := session_id;
                             p_escalation_status := escalation_status session;
                             p_message :=
                               status_message (escalation_status session) |})
              else (db', inl (HTTP 400 (error_message e)))
          | (db', Ok ok) =>
              let named :=
                match e_assigned_user_name ok with
                | Some name => if decide (name = "") then None else Some name
                | None => None
                end in
              let message :=
                match auto_assigned ok, named with
                | true, Some name => "Đã kết nối với nhân viên hỗ trợ " ++ name
                | _, _ => "Yêu cầu đã được gửi, nhân viên sẽ hỗ trợ sớm nhất"
                end in
              (db', inr {| p_success := true;
                           p_session_id := session_id;
                           p_escalation_status := e_escalation_status ok;
                           p_message := message |})
          end
      end
  else (db, inl (HTTP 404 "Tenant not found")).

End WithPlatform.

(** A wording of the exceptions for evaluation on examples. *)
Definition plain_exceptions : ExceptionText :=
  {| str_exception := fun e =>
       match e with
       | ItemAssignmentError _ => "object does not support item assignment"
       | StatementError _ _ => "statement rejected"
       end |}.

(** One entry of the ["staff"] list of GET /tenants/{tenant_id}/staff. *)
Record StaffEntry := {
  se_user_id : string;
  se_user : User;
  se_available : bool
}.

(** GET /tenants/{tenant_id}/staff (admin/escalation.py, lines 555-619):
    the list and its ["total"]. *)
Definition get_staff (tenants : gset string) (db : DB) (tenant_id : string)
  : HTTPException + (list StaffEntry * nat) :=
  if decide (tenant_id ∈ tenants) then
    let staff :=
      List.filter
        (fun r : string * User =>
           bool_decide (u_tenant_id (r.2) = tenant_id)
           && bool_decide (role (r.2) = supporter))
        (map_to_list (users db)) in
    inr (List.map
           (fun r : string * User =>
              {| se_user_id := r.1;
                 se_user := r.2;
                 se_available :=
                   is_available (supporter_status (r.2))
                   && (current_sessions_count (r.2)
                       <? max_concurrent_sessions (r.2))%Z |})
           staff,
         length staff)
  else inl (HTTP 404 "Tenant not found").

End Api.

(** ** Vocabulary for the life of a session *)

Module Lifecycle.
Import Store Service Interleaving Props Queue.

(** 'none' < 'pending' < 'assigned' < 'resolved' *)
Definition status_rank (st : EscalationStatus) : nat :=
  match st with
  | st_none => 0
  | st_pending => 1
  | st_assigned => 2
  | st_resolved => 3
  end.

Definition op_tenant (o : Op) : string :=
  match o with
  | Escalate _ _ _ tid _ _ _ => tid
  | Assign _ _ tid _ => tid
  | Resolve _ tid _ => tid
  end.

Definition op_session (o : Op) : string :=
  match o with
  | Escalate _ _ sid _ _ _ _ => sid
  | Assign _ sid _ _ => sid
  | Resolve sid _ _ => sid
  end.

(** The ["success"] entry of the dict a call returns. *)
Definition exec_success (o : Op) (db : DB) : bool :=
  match o with
  | Escalate now now_assign sid tid why auto kws =>
      success (escalate_session now now_assign db sid tid why auto kws).2
  | Assign now sid tid uid => success (assign_user now db sid tid uid).2
  | Resolve sid tid notes => success (resolve_escalation db sid tid notes).2
  end.

(** Every staff counter equals the number of sessions assigned to that
    staff member. *)
Definition counters_consistent (db : DB) : Prop :=
  ∀ uid u, users db !! uid = Some u →
    current_sessions_count u = Z.of_nat (length (sessions_assigned_to db uid)).

(** A call that is neither a reassignment of an assigned session nor a
    resolve of a resolved one. *)
Definition first_time (o : Op) (db : DB) : Prop :=
  match o with
  | Escalate _ _ _ _ _ _ _ => True
  | Assign _ sid _ _ => status_of db sid ≠ Some st_assigned
  | Resolve sid _ _ => status_of db sid ≠ Some st_resolved
  end.

Fixpoint all_first_time (ops : list Op) (db : DB) : Prop :=
  match ops with
  | [] => True
  | o :: rest => first_time o db ∧ all_first_time rest (exec o db)
  end.

(** A user row with its counter blanked: what no call may change. *)
Definition profile (u : User) : User := set_count 0 u.

(** The session holds a slot of [uid]: the row filter of
    [sessions_assigned_to]. *)
Definition occupies (uid : string) (s : ChatSession) : bool :=
  bool_decide (escalation_status s = st_assigned)
  && bool_decide (assigned_user_id s = Some uid).

(** The row filter of [count_status]. *)
Definition of_status (tid : string) (st : EscalationStatus)
    (r : string * ChatSession) : bool :=
  bool_decide (s_tenant_id (r.2) = tid)
  && bool_decide (escalation_status (r.2) = st).

Definition is_escalate (o : Op) : bool :=
  match o with
  | Escalate _ _ _ _ _ _ _ => true
  | Assign _ _ _ _ | Resolve _ _ _ => false
  end.

(** What a request in flight has read is still within the bound of the
    row it will write. *)
Definition in_flight_ok (db : DB) (r : Request) : Prop :=
  match r with
  | Loaded _ uid rows =>
      ∃ u0, users db !! uid = Some u0
            ∧ max_concurrent_sessions u0 = max_concurrent_sessions (rows.2)
            ∧ (0 ≤ current_sessions_count (rows.2)
               < max_concurrent_sessions (rows.2))%Z
  | Start _ _ _ | Returned _ => True
  end.

(** The three counters of the queue, added up. *)
Definition queue_total (db : DB) (tenant_id : string) : nat :=
  (pending_count (get_escalation_queue db tenant_id None)
   + assigned_count (get_escalation_queue db tenant_id None)
   + resolved_count (get_escalation_queue db tenant_id None))%nat.

End Lifecycle.

Import Api Queue Lifecycle.

(** ** Row-level facts about the writes *)

Section Writes.
Context (db : DB).

Lemma users_update_user uid f k :
  users (update_user uid f db) !! k
  = if decide (uid = k) then f <$> users db !! uid else users db !! k.
Proof. unfold update_user; simpl. apply lookup_alter. Qed.

Lemma sessions_update_user uid f : sessions (update_user uid f db) = sessions db.
Proof. reflexivity. Qed.

Lemma users_update_session sid f : users (update_session sid f db) = users db.
Proof. reflexivity. Qed.

Lemma sessions_update_session sid f k :
  sessions (update_session sid f db) !! k
  = if decide (sid = k) then f <$> sessions db !! sid else sessions db !! k.
Proof. unfold update_session; simpl. apply lookup_alter. Qed.

Lemma query_session_Some sid tid s :
  query_session db sid tid = Some s ↔
  sessions db !! sid = Some s ∧ s_tenant_id s = tid.
Proof.
  unfold query_session. destruct (sessions db !! sid) as [s0|].
  - case_decide; split.
    + intros [= ->]. done.
    + intros [[= ->] _]. done.
    + intros [=].
    + intros [[= ->] ?]. done.
  - split; [intros [=] | intros [[=] _]].
Qed.

Lemma query_supporter_Some uid tid u :
  query_supporter db uid tid = Some u ↔
  users db !! uid = Some u ∧ u_tenant_id u = tid ∧ role u = supporter.
Proof.
  unfold query_supporter. destruct (users db !! uid) as [u0|].
  - repeat case_decide; split; try (intros [=]); try (intros ([= ->]&?&?));
      subst; done.
  - split; [intros [=] | intros ([=]&_)].
Qed.

Lemma assign_check_Ok sid tid uid s u :
  assign_check db sid tid uid = Ok (s, u) ↔
  query_session db sid tid = Some s
  ∧ assignable (escalation_status s) = true
  ∧ query_supporter db uid tid = Some u
  ∧ is_available (supporter_status u) = true
  ∧ (current_sessions_count u < max_concurrent_sessions u)%Z.
Proof.
  unfold assign_check.
  destruct (query_session db sid tid) as [s0|];
    [|split; [intros [=] | intros ([=]&_)]].
  destruct (assignable (escalation_status s0)) eqn:Ha; simpl;
    [|split; [intros [=] | intros ([= <-]&?&_); congruence]].
  destruct (query_supporter db uid tid) as [u0|];
    [|split; [intros [=] | intros (_&_&[=]&_)]].
  destruct (is_available (supporter_status u0)) eqn:Hav; simpl;
    [|split; [intros [=] | intros (_&_&[= <-]&?&_); congruence]].
  destruct (Z.leb_spec (max_concurrent_sessions u0) (current_sessions_count u0)).
  - split; [intros [=]|]. intros (_&_&[= <-]&_&?). lia.
  - split; [intros [= <- <-]; done|]. intros ([= <-]&_&[= <-]&_). done.
Qed.

End Writes.

Lemma users_assign_commit now sid uid rows db k :
  users (assign_commit now sid uid rows db) !! k
  = if decide (uid = k)
    then set_count (current_sessions_count (rows.2) + 1) <$> users db !! uid
    else users db !! k.
Proof. unfold assign_commit. by rewrite users_update_user. Qed.

Lemma sessions_assign_commit now sid uid rows db k :
  sessions (assign_commit now sid uid rows db) !! k
  = if decide (sid = k)
    then set_assigned uid now <$> sessions db !! sid
    else sessions db !! k.
Proof.
  unfold assign_commit.
  by rewrite sessions_update_user, sessions_update_session.
Qed.

(** ** Candidates *)

Section Candidates.

#[local] Instance by_load_transitive : Transitive by_load.
Proof. intros a b c. unfold by_load. lia. Qed.

#[local] Instance by_load_total : Total by_load.
Proof. intros a b. unfold by_load. lia. Qed.

Lemma eligible_true tid u :
  eligible tid u = true ↔
  u_tenant_id u = tid ∧ role u = supporter
  ∧ (supporter_status u = online ∨ supporter_status u = available)
  ∧ (current_sessions_count u < max_concurrent_sessions u)%Z.
Proof.
  unfold eligible. rewrite !andb_true_iff, !bool_decide_eq_true, Z.ltb_lt.
  assert (is_available (supporter_status u) = true
          ↔ supporter_status u = online ∨ supporter_status u = available)
    as ->.
  { destruct (supporter_status u); simpl; split; intros H;
      try done; auto; destruct H; discriminate. }
  tauto.
Qed.

Lemma find_available_staff_elem db tid (r : string * User) :
  r ∈ find_available_staff db tid ↔
  users db !! r.1 = Some (r.2) ∧ eligible tid (r.2) = true.
Proof.
  unfold find_available_staff.
  rewrite merge_sort_Permutation, list_elem_of_In, filter_In,
    <- list_elem_of_In.
  destruct r as [uid u]. by rewrite elem_of_map_to_list.
Qed.

Lemma find_available_staff_sorted db tid :
  StronglySorted by_load (find_available_staff db tid).
Proof. apply StronglySorted_merge_sort; apply _. Qed.

Lemma find_available_staff_head db tid best rest :
  find_available_staff db tid = best :: rest →
  users db !! best.1 = Some (best.2)
  ∧ eligible tid (best.2) = true
  ∧ ∀ r, r ∈ find_available_staff db tid → by_load best r.
Proof.
  intros Hfind.
  assert (best ∈ find_available_staff db tid) as Hin
    by (rewrite Hfind; left).
  apply find_available_staff_elem in Hin as [Hu He].
  split; [done|]. split; [done|].
  pose proof (find_available_staff_sorted db tid) as Hsorted.
  rewrite Hfind in Hsorted |- *.
  apply StronglySorted_inv in Hsorted as [_ Hall].
  intros r [->|Hr]%elem_of_cons.
  - unfold by_load. lia.
  - rewrite Forall_forall in Hall. by apply Hall.
Qed.

(** The one attempt of [escalate_session] on a session that is pending. *)
Lemma auto_assign_pending now db sid tid s :
  sessions db !! sid = Some s → s_tenant_id s = tid →
  escalation_status s = st_pending →
  match find_available_staff db tid with
  | [] => auto_assign now db sid tid = (db, None)
  | best :: _ =>
      auto_assign now db sid tid
      = (assign_commit now sid (best.1) (s, best.2) db,
         Some (best.1, name_of (best.2)))
  end.
Proof.
  intros Hs Ht Hst. unfold auto_assign.
  destruct (find_available_staff db tid) as [|best rest] eqn:Hfind; [done|].
  apply find_available_staff_head in Hfind as (Hu & He & _).
  apply eligible_true in He as (Hten & Hrole & Hav & Hlt).
  assert (assign_check db sid tid (best.1) = Ok (s, best.2)) as Hc.
  { apply assign_check_Ok. split; [by apply query_session_Some|].
    split; [by rewrite Hst|]. split; [by apply query_supporter_Some|].
    split; [|done]. by destruct Hav as [-> | ->]. }
  unfold assign_user. rewrite Hc. done.
Qed.

End Candidates.

Section Escalate.

Lemma NoDup_keys_filter {A} (f : string * A → bool) (l : list (string * A)) :
  NoDup (l.*1) → NoDup ((List.filter f l).*1).
Proof.
  induction l as [|x l IH]; simpl; [done|].
  rewrite NoDup_cons. intros [Hx Hl].
  destruct (f x); simpl; [|by apply IH].
  apply NoDup_cons. split; [|by apply IH].
  intros Hin. apply Hx. apply list_elem_of_fmap in Hin as (y & -> & Hy).
  apply list_elem_of_fmap. exists y. split; [done|].
  apply list_elem_of_In in Hy. apply filter_In in Hy as [Hy _].
  by apply list_elem_of_In.
Qed.

Lemma find_available_staff_NoDup db tid :
  NoDup (find_available_staff db tid).*1.
Proof.
  unfold find_available_staff. rewrite merge_sort_Permutation.
  apply NoDup_keys_filter, NoDup_fst_map_to_list.
Qed.

Lemma query_session_None db sid tid :
  query_session db sid tid = None ↔
  ∀ s, sessions db !! sid = Some s → s_tenant_id s ≠ tid.
Proof.
  unfold query_session. destruct (sessions db !! sid) as [s0|].
  - case_decide as Ht; split.
    + intros [=].
    + intros Hno. by destruct (Hno s0 eq_refl).
    + intros _ s [= <-]. done.
    + done.
  - split; [intros _ s [=] | done].
Qed.

Lemma split_chars_fits n s :
  (char_length s ≤ n)%nat → split_chars n s = (s, "").
Proof.
  revert n. induction s as [|c s IH]; intros n Hlen; [done|].
  simpl in *. destruct (starts_char c).
  - destruct n as [|n]; [lia|]. rewrite IH by lia. done.
  - rewrite IH by lia. done.
Qed.

(** A text without NUL of at most [n] characters is stored as it is. *)
Lemma varchar_fits n s :
  has_nul s = false → (char_length s ≤ n)%nat → varchar n s = Some s.
Proof.
  intros Hnul Hlen. unfold varchar. rewrite Hnul, split_chars_fits by done.
  done.
Qed.

Lemma forallb_jsonb_text (l : list string) :
  forallb jsonb_text l = true ↔ ∀ k, k ∈ l → has_nul k = false.
Proof.
  rewrite forallb_forall. unfold jsonb_text.
  split; intros H k Hk.
  - apply negb_true_iff, H. by apply list_elem_of_In.
  - apply negb_true_iff, H. by apply list_elem_of_In.
Qed.

(** When the commit of lines 170-185 goes through. *)
Lemma escalated_columns_accepts sid s why auto kws stored :
  varchar REASON_WIDTH why = Some stored →
  (auto = true →
     (∀ kind, session_metadata s ≠ meta_other kind)
     ∧ (session_metadata s = meta_falsy →
        ∀ k, k ∈ default [] kws → has_nul k = false)) →
  ∃ meta, escalated_columns sid s why auto kws = inr (stored, meta).
Proof.
  intros Hwhy Hmeta. unfold escalated_columns. rewrite Hwhy.
  destruct auto; [|by eexists].
  destruct (Hmeta eq_refl) as [Hkind Hkws].
  destruct (session_metadata s) as [| |kind]; simpl.
  - apply forallb_jsonb_text in Hkws; [|done]. rewrite Hkws. by eexists.
  - by eexists.
  - by destruct (Hkind kind).
Qed.

(** When they raise. *)
Lemma escalated_columns_rejects sid s why auto kws :
  varchar REASON_WIDTH why = None
  ∨ (auto = true ∧ ∃ kind, session_metadata s = meta_other kind)
  ∨ (auto = true ∧ session_metadata s = meta_falsy
     ∧ ∃ k, k ∈ default [] kws ∧ has_nul k = true) →
  ∃ e, escalated_columns sid s why auto kws = inl e.
Proof.
  unfold escalated_columns.
  intros [Hwhy|[[-> [kind ->]]|(-> & -> & k & Hk & Hnul)]].
  - rewrite Hwhy.
    destruct auto; [destruct (write_metadata _) as [e|[meta flushed]]|];
      by eexists.
  - by eexists.
  - simpl. destruct (varchar REASON_WIDTH why); [|by eexists].
    destruct (forallb jsonb_text (default [] kws)) eqn:Hall; [|by eexists].
    apply forallb_jsonb_text with (k := k) in Hall; [congruence|done].
Qed.

(** When the commit of lines 448-456 goes through, and when it raises. *)
Lemma resolved_metadata_accepts sid s notes :
  (∀ kind, session_metadata s ≠ meta_other kind) →
  (session_metadata s = meta_falsy →
   ∀ n, notes = Some n → has_nul n = false) →
  ∃ meta, resolved_metadata sid s notes = inr meta.
Proof.
  intros Hkind Hnotes. unfold resolved_metadata.
  destruct (session_metadata s) as [| |kind]; simpl.
  - destruct notes as [n|]; simpl; [|by eexists].
    unfold jsonb_text. rewrite (Hnotes eq_refl n eq_refl). by eexists.
  - by eexists.
  - by destruct (Hkind kind).
Qed.

Lemma resolved_metadata_rejects sid s notes :
  (∃ kind, session_metadata s = meta_other kind)
  ∨ (session_metadata s = meta_falsy
     ∧ ∃ n, notes = Some n ∧ has_nul n = true) →
  ∃ e, resolved_metadata sid s notes = inl e.
Proof.
  unfold resolved_metadata.
  intros [[kind ->]|(-> & n & -> & Hnul)]; simpl; [by eexists|].
  unfold jsonb_text. rewrite Hnul. by eexists.
Qed.

(** What a call returns once both guards are passed and the store takes
    the write. *)
Lemma escalate_session_passed now now' db sid tid why auto kws s stored meta :
  query_session db sid tid = Some s → escalation_status s = st_none →
  escalated_columns sid s why auto kws = inr (stored, meta) →
  escalate_session now now' db sid tid why auto kws
  = match find_available_staff db tid with
    | [] =>
        (update_session sid
           (fun x => set_metadata meta (set_escalated stored now x)) db,
         Ok {| e_session_id := sid; e_escalation_status := st_pending;
               e_escalation_requested_at := Some now;
               auto_assigned := false;
               e_assigned_user_id := None;
               e_assigned_user_name := None |})
    | best :: _ =>
        (assign_commit now' sid (best.1)
           (set_metadata meta (set_escalated stored now s), best.2)
           (update_session sid
              (fun x => set_metadata meta (set_escalated stored now x)) db),
         Ok {| e_session_id := sid; e_escalation_status := st_assigned;
               e_escalation_requested_at := Some now;
               auto_assigned := true;
               e_assigned_user_id := Some (best.1);
               e_assigned_user_name := Some (name_of (best.2)) |})
    end.
Proof.
  intros Hq Hst Hcols. unfold escalate_session. rewrite Hq.
  rewrite decide_False by (rewrite Hst; intros H; by apply H).
  rewrite Hcols.
  apply query_session_Some in Hq as [Hs Ht].
  set (db1 := update_session sid
                (fun x => set_metadata meta (set_escalated stored now x)) db).
  assert (sessions db1 !! sid
          = Some (set_metadata meta (set_escalated stored now s))) as Hs1.
  { unfold db1. rewrite sessions_update_session, decide_True by done.
    by rewrite Hs. }
  pose proof (auto_assign_pending now' db1 sid tid _ Hs1 Ht eq_refl) as Hauto.
  change (find_available_staff db1 tid) with (find_available_staff db tid)
    in Hauto.
  destruct (find_available_staff db tid) as [|best rest]; rewrite Hauto.
  - rewrite Hs1. reflexivity.
  - rewrite sessions_assign_commit, decide_True by done.
    rewrite Hs1. reflexivity.
Qed.

(** The three ways a call ends. *)
Lemma escalate_session_cases now now' db sid tid why auto kws :
  (∃ e, escalate_session now now' db sid tid why auto kws = (db, Failure e))
  ∨ ∃ s stored meta,
      sessions db !! sid = Some s ∧ s_tenant_id s = tid
      ∧ escalation_status s = st_none
      ∧ escalated_columns sid s why auto kws = inr (stored, meta)
      ∧ ((find_available_staff db tid = []
          ∧ escalate_session now now' db sid tid why auto kws
            = (update_session sid
                 (fun x => set_metadata meta (set_escalated stored now x)) db,
               Ok {| e_session_id := sid; e_escalation_status := st_pending;
                     e_escalation_requested_at := Some now;
                     auto_assigned := false;
                     e_assigned_user_id := None;
                     e_assigned_user_name := None |}))
         ∨ ∃ best rest,
             find_available_staff db tid = best :: rest
             ∧ escalate_session now now' db sid tid why auto kws
               = (update_user (best.1)
                    (set_count (current_sessions_count (best.2) + 1))
                    (update_session sid
                       (fun x => set_assigned (best.1) now'
                                   (set_metadata meta
                                      (set_escalated stored now x))) db),
                  Ok {| e_session_id := sid; e_escalation_status := st_assigned;
                        e_escalation_requested_at := Some now;
                        auto_assigned := true;
                        e_assigned_user_id := Some (best.1);
                        e_assigned_user_name := Some (name_of (best.2)) |})).
Proof.
  destruct (query_session db sid tid) as [s|] eqn:Hq.
  - destruct (decide (escalation_status s = st_none)) as [Hst|Hst].
    + destruct (escalated_columns sid s why auto kws) as [e|[stored meta]]
        eqn:Hcols.
      * left. exists (EscalateFailed e). unfold escalate_session.
        rewrite Hq, decide_False, Hcols; [done|].
        rewrite Hst. intros H. by apply H.
      * right. exists s, stored, meta.
        rewrite (escalate_session_passed _ _ _ _ _ _ _ _ s stored meta
                   Hq Hst Hcols).
        apply query_session_Some in Hq as [Hs Ht].
        split; [done|]. split; [done|]. split; [done|]. split; [done|].
        destruct (find_available_staff db tid) as [|best rest] eqn:Hfind.
        -- by left.
        -- right. exists best, rest. split; [done|]. f_equal.
           unfold assign_commit, update_user, update_session. simpl. f_equal.
           apply map_eq. intros k. rewrite !lookup_alter.
           case_decide as Hk; [|done].
           rewrite decide_True by done. by destruct (sessions db !! sid).
    + left. eexists. unfold escalate_session. rewrite Hq. by rewrite decide_True.
  - left. eexists. unfold escalate_session. by rewrite Hq.
Qed.

Lemma resolve_escalation_cases db sid tid notes :
  (∃ e, resolve_escalation db sid tid notes = (db, Failure e))
  ∨ ∃ s meta,
      sessions db !! sid = Some s ∧ s_tenant_id s = tid
      ∧ escalation_status s ≠ st_none
      ∧ resolved_metadata sid s notes = inr meta
      ∧ resolve_escalation db sid tid notes
        = (update_session sid (fun x => set_metadata meta (set_resolved x))
             (release_assignee s db),
           Ok {| r_session_id := sid; r_escalation_status := st_resolved |}).
Proof.
  unfold resolve_escalation.
  destruct (query_session db sid tid) as [s|] eqn:Hq; [|left; by eexists].
  case_decide as Hst; [left; by eexists|].
  destruct (resolved_metadata sid s notes) as [e|meta] eqn:Hmeta;
    [left; by eexists|].
  right. exists s, meta. apply query_session_Some in Hq as [Hs Ht]. done.
Qed.

End Escalate.

(** ** The load bound *)

Section LoadBound.

Lemma load_bound_update_session db sid f :
  load_bound db → load_bound (update_session sid f db).
Proof. done. Qed.

Lemma load_bound_set_count db uid u c :
  load_bound db → users db !! uid = Some u →
  (0 ≤ c ≤ max_concurrent_sessions u)%Z →
  load_bound (update_user uid (set_count c) db).
Proof.
  intros Hb Hu Hc k v. rewrite users_update_user.
  case_decide as Hk.
  - rewrite Hu. intros [= <-]. simpl. done.
  - apply Hb.
Qed.

Lemma assign_user_load_bound now db sid tid uid :
  load_bound db → load_bound (assign_user now db sid tid uid).1.
Proof.
  intros Hb. unfold assign_user.
  destruct (assign_check db sid tid uid) as [[s u]|e] eqn:Hc; [|done].
  apply assign_check_Ok in Hc as (_ & _ & Hq & _ & Hlt).
  apply query_supporter_Some in Hq as (Hu & _).
  simpl. unfold assign_commit.
  apply load_bound_set_count with u; [done|done|].
  pose proof (Hb uid u Hu) as Hrow. simpl in *. lia.
Qed.

Lemma release_assignee_load_bound s db :
  load_bound db → load_bound (release_assignee s db).
Proof.
  intros Hb. unfold release_assignee, query_user_by_id.
  destruct (assigned_user_id s) as [uid|]; [|done].
  destruct (users db !! uid) as [u|] eqn:Hu; [|done].
  destruct (Z.ltb_spec 0 (current_sessions_count u)); [|done].
  apply load_bound_set_count with u; [done|done|].
  pose proof (Hb uid u Hu) as Hrow. simpl in *. lia.
Qed.

Lemma resolve_escalation_load_bound db sid tid notes :
  load_bound db → load_bound (resolve_escalation db sid tid notes).1.
Proof.
  intros Hb.
  destruct (resolve_escalation_cases db sid tid notes)
    as [[e ->]|(s & meta & _ & _ & _ & _ & ->)]; [done|].
  by apply load_bound_update_session, release_assignee_load_bound.
Qed.

Lemma auto_assign_load_bound now db sid tid :
  load_bound db → load_bound (auto_assign now db sid tid).1.
Proof.
  intros Hb. unfold auto_assign.
  destruct (find_available_staff db tid) as [|best rest]; [done|].
  pose proof (assign_user_load_bound now db sid tid (best.1) Hb) as Ha.
  destruct (assign_user now db sid tid (best.1)) as [db' [ok|e]]; done.
Qed.

Lemma escalate_session_load_bound now now' db sid tid why auto kws :
  load_bound db →
  load_bound (escalate_session now now' db sid tid why auto kws).1.
Proof.
  intros Hb.
  destruct (escalate_session_cases now now' db sid tid why auto kws)
    as [[e ->]|(s & stored & meta & _ & _ & _ & _
                & [[_ ->]|(best & rest & Hfind & ->)])]; [done| |].
  - by apply load_bound_update_session.
  - assert (best ∈ find_available_staff db tid) as Hin
      by (rewrite Hfind; left).
    apply find_available_staff_elem in Hin as (Hu & Hel).
    apply eligible_true in Hel as (_ & _ & _ & Hlt).
    apply load_bound_set_count with (best.2).
    + by apply load_bound_update_session.
    + done.
    + pose proof (Hb _ _ Hu) as Hrow. simpl in *. lia.
Qed.

Lemma exec_load_bound o db : load_bound db → load_bound (exec o db).
Proof.
  destruct o; simpl.
  - apply escalate_session_load_bound.
  - apply assign_user_load_bound.
  - apply resolve_escalation_load_bound.
Qed.

End LoadBound.

(** C4.  Load bound: when every staff row satisfies
    [0 <= current_sessions_count <= max_concurrent_sessions], it still does
    after any sequence of [escalate_session], [assign_user] and
    [resolve_escalation] calls. *)
Theorem load_bound_invariant (ops : list Op) (db : DB) :
  load_bound db → load_bound (run ops db).
Proof.
  revert db. induction ops as [|o ops IH]; intros db Hb; [done|].
  simpl. apply IH, exec_load_bound, Hb.
Qed.

Lemma load_bound_invariant_witness :
  load_bound db_scenario
  ∧ load_bound
      (run [ Escalate 10 11 "A" "T" "help" false None;
             Escalate 12 13 "B" "T" "help" false None;
             Resolve "A" "T" None;
             Assign 20 "B" "T" "S1" ] db_scenario).
Proof.
  assert (load_bound db_scenario) as Hb.
  { apply map_Forall_to_list. vm_compute. repeat constructor; discriminate. }
  split; [exact Hb | apply (load_bound_invariant _ _ Hb)].
Defined.

(** ** Assignee and status *)

Section Assignee.

Lemma tracks_update_user db uid f :
  assignee_tracks_status db → assignee_tracks_status (update_user uid f db).
Proof. done. Qed.

Lemma tracks_update_session db sid f :
  assignee_tracks_status db →
  (∀ s, sessions db !! sid = Some s →
     (escalation_status (f s) = st_assigned → is_Some (assigned_user_id (f s)))
     ∧ (is_Some (assigned_user_id (f s)) →
          escalation_status (f s) = st_assigned
          ∨ escalation_status (f s) = st_resolved)) →
  assignee_tracks_status (update_session sid f db).
Proof.
  intros Hinv Hf k s'. rewrite sessions_update_session.
  case_decide as Hk.
  - destruct (sessions db !! sid) as [s|] eqn:Hs; [|done].
    intros [= <-]. by apply Hf.
  - apply Hinv.
Qed.

Lemma assign_user_tracks now db sid tid uid :
  assignee_tracks_status db →
  assignee_tracks_status (assign_user now db sid tid uid).1.
Proof.
  intros Hinv. unfold assign_user.
  destruct (assign_check db sid tid uid) as [[s u]|e]; [|done].
  simpl. unfold assign_commit.
  apply tracks_update_user, tracks_update_session; [done|].
  intros s0 _. simpl. split; [intros _; by eexists | by left].
Qed.

Lemma resolve_escalation_tracks db sid tid notes :
  assignee_tracks_status db →
  assignee_tracks_status (resolve_escalation db sid tid notes).1.
Proof.
  intros Hinv.
  destruct (resolve_escalation_cases db sid tid notes)
    as [[e ->]|(s & meta & _ & _ & _ & _ & ->)]; [done|].
  apply tracks_update_session.
  - unfold release_assignee, query_user_by_id.
    destruct (assigned_user_id s) as [uid|]; [|done].
    destruct (users db !! uid) as [u|]; [|done].
    destruct (0 <? current_sessions_count u)%Z; done.
  - intros s0 _. simpl. split; [done | by right].
Qed.

Lemma escalate_session_tracks now now' db sid tid why auto kws :
  assignee_tracks_status db →
  assignee_tracks_status (escalate_session now now' db sid tid why auto kws).1.
Proof.
  intros Hinv.
  destruct (escalate_session_cases now now' db sid tid why auto kws)
    as [[e ->]|(s & stored & meta & Hs & _ & Hst & _
                & [[_ ->]|(best & rest & _ & ->)])]; [done| |].
  - apply tracks_update_session; [done|].
    intros s0 Hs0. rewrite Hs in Hs0. injection Hs0 as <-. simpl.
    split; [done|]. intros Hsome.
    destruct (Hinv sid s Hs) as [_ Hback].
    destruct (Hback Hsome) as [Heq|Heq]; rewrite Hst in Heq; discriminate.
  - apply tracks_update_user, tracks_update_session; [done|].
    intros s0 _. simpl. split; [intros _; by eexists | by left].
Qed.

Lemma exec_tracks o db :
  assignee_tracks_status db → assignee_tracks_status (exec o db).
Proof.
  destruct o; simpl.
  - apply escalate_session_tracks.
  - apply assign_user_tracks.
  - apply resolve_escalation_tracks.
Qed.

Lemma run_tracks ops db :
  assignee_tracks_status db → assignee_tracks_status (run ops db).
Proof.
  revert db. induction ops as [|o ops IH]; intros db Hinv; [done|].
  simpl. apply IH, exec_tracks, Hinv.
Qed.

Lemma resolve_escalation_Ok db sid tid notes db' ok :
  resolve_escalation db sid tid notes = (db', Ok ok) →
  ∃ s, sessions db !! sid = Some s ∧ s_tenant_id s = tid
       ∧ escalation_status s ≠ st_none
       ∧ ∃ meta, resolved_metadata sid s notes = inr meta
           ∧ db' = update_session sid
                     (fun x => set_metadata meta (set_resolved x))
                     (release_assignee s db).
Proof.
  destruct (resolve_escalation_cases db sid tid notes)
    as [[e ->]|(s & meta & Hs & Ht & Hst & Hmeta & ->)]; [intros [=]|].
  intros [= <- _]. exists s. repeat (split; [done|]). by exists meta.
Qed.

Lemma sessions_release_assignee s db :
  sessions (release_assignee s db) = sessions db.
Proof.
  unfold release_assignee, query_user_by_id.
  destruct (assigned_user_id s) as [uid|]; [|done].
  destruct (users db !! uid) as [u|]; [|done].
  destruct (0 <? current_sessions_count u)%Z; done.
Qed.

End Assignee.

(** C2, as the code has it.  Every sequence of service calls preserves: a
    session in status 'assigned' has an assignee, and a session with an
    assignee is in status 'assigned' or 'resolved'.  A successful
    [resolve_escalation] sets the status to 'resolved' and leaves
    [assigned_user_id] as it was. *)
Theorem assignee_tracks_status_invariant (db : DB) :
  assignee_tracks_status db →
  (∀ ops, assignee_tracks_status (run ops db))
  ∧ (∀ sid tid notes db' ok,
       resolve_escalation db sid tid notes = (db', Ok ok) →
       status_of db' sid = Some st_resolved
       ∧ assignee_of db' sid = assignee_of db sid).
Proof.
  intros Hinv. split; [intros ops; by apply run_tracks|].
  intros sid tid notes db' ok Hres.
  apply resolve_escalation_Ok in Hres as (s & Hs & _ & _ & meta & _ & ->).
  unfold status_of, assignee_of.
  rewrite sessions_update_session, sessions_release_assignee.
  rewrite decide_True by done. rewrite Hs. done.
Qed.

Lemma assignee_tracks_status_invariant_witness :
  assignee_tracks_status
    (run [ Escalate 10 11 "A" "T" "help" false None; Resolve "A" "T" None ]
         db_scenario)
  ∧ status_of (resolve_escalation db_reassign "X" "T" None).1 "X"
    = Some st_resolved
  ∧ assignee_of (resolve_escalation db_reassign "X" "T" None).1 "X"
    = assignee_of db_reassign "X".
Proof.
  assert (∀ db, Forall (fun r : string * ChatSession =>
                   is_Some (assigned_user_id (r.2))
                   ↔ escalation_status (r.2) = st_assigned)
                 (map_to_list (sessions db)) →
                assignee_tracks_status db) as Hlist.
  { intros db HF. apply map_Forall_to_list.
    eapply Forall_impl; [exact HF|]. intros [k s] [H1 H2]; simpl in *.
    split; [exact H2 | intros H; left; exact (H1 H)]. }
  assert (assignee_tracks_status db_scenario) as Hs.
  { apply Hlist. vm_compute.
    repeat constructor; try discriminate; intros [x Hx]; discriminate. }
  assert (assignee_tracks_status db_reassign) as Hr.
  { apply Hlist. vm_compute. repeat constructor. by eexists. }
  split; [apply (assignee_tracks_status_invariant _ Hs)|].
  apply (proj2 (assignee_tracks_status_invariant _ Hr) "X" "T" None _
           {| r_session_id := "X"; r_escalation_status := st_resolved |}).
  vm_compute. reflexivity.
Defined.

(** C2, as the claim states it, fails: resolving an assigned session leaves
    it 'resolved' with its assignee still set. *)
Lemma resolve_keeps_assignee_counterexample :
  assignee_iff_assigned db_reassign
  ∧ success (resolve_escalation db_reassign "X" "T" None).2 = true
  ∧ status_of (resolve_escalation db_reassign "X" "T" None).1 "X"
    = Some st_resolved
  ∧ assignee_of (resolve_escalation db_reassign "X" "T" None).1 "X" = Some "SA"
  ∧ ¬ assignee_iff_assigned (resolve_escalation db_reassign "X" "T" None).1.
Proof.
  split.
  { apply map_Forall_to_list. vm_compute. repeat constructor. by eexists. }
  split; [reflexivity|]. split; [reflexivity|]. split; [reflexivity|].
  intros Hiff.
  assert (sessions (resolve_escalation db_reassign "X" "T" None).1 !! "X"
          = Some (set_metadata meta_object
                    (set_resolved (chat "T" (Some "SA") st_assigned)))) as Hx
    by reflexivity.
  destruct (Hiff _ _ Hx) as [Hto _].
  simpl in Hto. discriminate Hto. by eexists.
Qed.

(** ** Release of capacity *)

(** C1.  The code at a double resolve: S1 serves A and B (counter 2).  The
    first [resolve_escalation] of A brings the counter to 1; the second one
    passes the status guard ('resolved' is not 'none'), finds the assignee
    still on the row and brings the counter to 0, while B is still assigned
    to S1. *)
Theorem resolve_twice_releases_twice :
  let r1 := resolve_escalation db_two_assigned "A" "T" None in
  let r2 := resolve_escalation (r1.1) "A" "T" None in
  count_of db_two_assigned "S1" = Some 2
  ∧ success (r1.2) = true ∧ count_of (r1.1) "S1" = Some 1
  ∧ status_of (r1.1) "A" = Some st_resolved
  ∧ success (r2.2) = true ∧ count_of (r2.1) "S1" = Some 0
  ∧ sessions_assigned_to (r2.1) "S1" = ["B"].
Proof. vm_compute. repeat split; reflexivity. Qed.

(** C3.  The code at a reassignment: X is assigned to SA (counter 1) and is
    assigned again, to SB.  The call succeeds, SB's counter goes from 0 to
    1, and SA's counter stays at 1 although no session is assigned to SA
    any more. *)
Theorem reassign_keeps_old_claim :
  let r := assign_user 20 db_reassign "X" "T" "SB" in
  count_of db_reassign "SA" = Some 1 ∧ count_of db_reassign "SB" = Some 0
  ∧ success (r.2) = true
  ∧ assignee_of (r.1) "X" = Some "SB"
  ∧ count_of (r.1) "SB" = Some 1
  ∧ count_of (r.1) "SA" = Some 1
  ∧ sessions_assigned_to (r.1) "SA" = []
  ∧ sessions_assigned_to (r.1) "SB" = ["X"].
Proof. vm_compute. repeat split; reflexivity. Qed.

(** C6.  The code at a session whose assignee belongs to another tenant:
    [resolve_escalation] called for tenant T1 looks the assignee up by
    [user_id] alone and decrements the counter of U2, a row of tenant T2. *)
Theorem resolve_releases_other_tenant :
  let r := resolve_escalation db_cross_tenant "X" "T1" None in
  u_tenant_id <$> users db_cross_tenant !! "U2" = Some "T2"
  ∧ query_supporter db_cross_tenant "U2" "T1" = None
  ∧ count_of db_cross_tenant "U2" = Some 1
  ∧ success (r.2) = true
  ∧ count_of (r.1) "U2" = Some 0.
Proof. vm_compute. repeat split; reflexivity. Qed.

(** ** The claim of a slot *)

Section Claim.

Lemma assign_user_Ok now db sid tid uid db' ok :
  assign_user now db sid tid uid = (db', Ok ok) →
  ∃ s u, assign_check db sid tid uid = Ok (s, u)
         ∧ db' = assign_commit now sid uid (s, u) db
         ∧ ok = assign_ok now sid uid (s, u).
Proof.
  unfold assign_user.
  destruct (assign_check db sid tid uid) as [[s u]|e]; [|intros [=]].
  intros [= <- <-]. by exists s, u.
Qed.

Lemma assign_user_full now db sid tid uid :
  (∀ u, users db !! uid = Some u →
        max_concurrent_sessions u ≤ current_sessions_count u)%Z →
  success (assign_user now db sid tid uid).2 = false.
Proof.
  intros Hfull. unfold assign_user.
  destruct (assign_check db sid tid uid) as [[s u]|e] eqn:Hc; [|done].
  apply assign_check_Ok in Hc as (_ & _ & Hq & _ & Hlt).
  apply query_supporter_Some in Hq as (Hu & _).
  specialize (Hfull u Hu). lia.
Qed.

End Claim.

(** C5, as the code has it.  A successful [assign_user] is a read of the
    staff row that found [current_sessions_count < max_concurrent_sessions],
    followed by a write of the value read plus one: run without another
    request in between (the two steps of the request back to back) it moves
    the stored counter up by exactly one, and once that took the last free
    slot every later [assign_user] to that staff member fails. *)
Theorem assign_user_claims_when_alone now db sid tid uid db' ok :
  assign_user now db sid tid uid = (db', Ok ok) →
  run_schedule now [0; 0]%nat db [Start sid tid uid] = (db', [Returned (Ok ok)])
  ∧ ∃ u, users db !! uid = Some u
       ∧ (current_sessions_count u < max_concurrent_sessions u)%Z
       ∧ users db' !! uid = Some (set_count (current_sessions_count u + 1) u)
       ∧ (current_sessions_count u + 1 = max_concurrent_sessions u →
          ∀ now2 sid2 tid2,
            success (assign_user now2 db' sid2 tid2 uid).2 = false).
Proof.
  intros Hok.
  apply assign_user_Ok in Hok as (s & u & Hc & -> & ->).
  split.
  { simpl. rewrite Hc. reflexivity. }
  apply assign_check_Ok in Hc as (_ & _ & Hq & _ & Hlt).
  apply query_supporter_Some in Hq as (Hu & _).
  exists u. split; [done|]. split; [done|].
  assert (users (assign_commit now sid uid (s, u) db) !! uid
          = Some (set_count (current_sessions_count u + 1) u)) as Hu'.
  { rewrite users_assign_commit, decide_True by done. by rewrite Hu. }
  split; [done|].
  intros Hlast now2 sid2 tid2. apply assign_user_full.
  intros u' Hlook. rewrite Hu' in Hlook. injection Hlook as <-. simpl. lia.
Qed.

Lemma assign_user_claims_when_alone_witness :
  ∃ db' u,
    run_schedule 20 [0; 0]%nat db_last_slot [Start "A" "T" "S1"]
    = (db', [Returned (Ok (assign_ok 20 "A" "S1"
                             (chat "T" None st_pending,
                              staff "T" "s1" online 1 0)))])
    ∧ users db' !! "S1" = Some u
    ∧ current_sessions_count u = 1
    ∧ success (assign_user 21 db' "B" "T" "S1").2 = false.
Proof.
  destruct (assign_user_claims_when_alone 20 db_last_slot "A" "T" "S1"
              (assign_user 20 db_last_slot "A" "T" "S1").1
              (assign_ok 20 "A" "S1"
                 (chat "T" None st_pending, staff "T" "s1" online 1 0)))
    as (Hrun & u & Hu & Hlt & Hu' & Hlast).
  { vm_compute. reflexivity. }
  exists (assign_user 20 db_last_slot "A" "T" "S1").1,
         (set_count (current_sessions_count u + 1) u).
  assert (u = staff "T" "s1" online 1 0) as ->.
  { assert (users db_last_slot !! "S1" = Some (staff "T" "s1" online 1 0))
      as Hknown by reflexivity.
    rewrite Hknown in Hu. by injection Hu. }
  split; [exact Hrun|]. split; [exact Hu'|]. split; [reflexivity|].
  apply Hlast. reflexivity.
Defined.

(** C5, as the claim states it, fails: S1 has one free slot; two requests
    that both read the row before either writes both pass the guard and
    both commit, so both sessions end up assigned to S1, whose counter
    reads 1. *)
Lemma interleaved_claims_take_last_slot :
  let r := run_schedule 20 [0; 1; 0; 1]%nat db_last_slot
             [Start "A" "T" "S1"; Start "B" "T" "S1"] in
  (max_concurrent_sessions <$> users db_last_slot !! "S1") = Some 1
  ∧ count_of db_last_slot "S1" = Some 0
  ∧ (success <$> (r.2 ≫= fun q => match q with Returned res => [res] | _ => [] end))
    = [true; true]
  ∧ sessions_assigned_to (r.1) "S1" = ["A"; "B"]
  ∧ count_of (r.1) "S1" = Some 1.
Proof. vm_compute. repeat split; reflexivity. Qed.



(** C7, as the code has it.  [escalate_session] fails with "Session not
    found" when the tenant has no session of that id and with "Session
    already escalated" when the status is not 'none'.  Past both guards it
    succeeds if and only if the store takes the write: when the reason
    does not fit the column [escalation_reason] (500 characters, no NUL),
    or when [auto_detected] is set and the metadata takes no entry or the
    keywords cannot be stored, the call returns "Failed to escalate
    session" and nothing is written.  When the write is taken, the row gets
    the reason and the request stamp; with no candidate it is left
    'pending' with its assignee column untouched, no staff row changes and
    the call reports success with [auto_assigned = false]; with a candidate
    it is 'assigned' to the head of the candidate list. *)
Theorem escalate_session_guards now now' db sid tid why auto kws :
  ((∀ s, sessions db !! sid = Some s → s_tenant_id s ≠ tid) →
   escalate_session now now' db sid tid why auto kws
   = (db, Failure SessionNotFound))
  ∧ ∀ s, sessions db !! sid = Some s → s_tenant_id s = tid →
    (escalation_status s ≠ st_none →
       escalate_session now now' db sid tid why auto kws
       = (db, Failure (AlreadyEscalated (escalation_status s))))
    ∧ (escalation_status s = st_none →
       (varchar REASON_WIDTH why = None
        ∨ (auto = true ∧ ∃ kind, session_metadata s = meta_other kind)
        ∨ (auto = true ∧ session_metadata s = meta_falsy
           ∧ ∃ k, k ∈ default [] kws ∧ has_nul k = true) →
        ∃ e, escalate_session now now' db sid tid why auto kws
             = (db, Failure (EscalateFailed e)))
       ∧ (has_nul why = false → (char_length why ≤ 500)%nat →
          varchar REASON_WIDTH why = Some why)
       ∧ (∀ stored,
            varchar REASON_WIDTH why = Some stored →
            (auto = true →
               (∀ kind, session_metadata s ≠ meta_other kind)
               ∧ (session_metadata s = meta_falsy →
                  ∀ k, k ∈ default [] kws → has_nul k = false)) →
            ∃ db' ok s',
              escalate_session now now' db sid tid why auto kws = (db', Ok ok)
              ∧ sessions db' !! sid = Some s'
              ∧ escalation_requested_at s' = Some now
              ∧ escalation_reason s' = Some stored
              ∧ e_escalation_status ok = escalation_status s'
              ∧ e_escalation_requested_at ok = Some now
              ∧ match find_available_staff db tid with
                | [] => escalation_status s' = st_pending
                        ∧ assigned_user_id s' = assigned_user_id s
                        ∧ escalation_assigned_at s' = escalation_assigned_at s
                        ∧ auto_assigned ok = false
                        ∧ e_assigned_user_id ok = None
                        ∧ users db' = users db
                | best :: _ => escalation_status s' = st_assigned
                               ∧ assigned_user_id s' = Some (best.1)
                               ∧ escalation_assigned_at s' = Some now'
                               ∧ auto_assigned ok = true
                               ∧ e_assigned_user_id ok = Some (best.1)
                end)).
Proof.
  split.
  { intros Hno. apply query_session_None in Hno.
    unfold escalate_session. by rewrite Hno. }
  intros s Hs Ht.
  assert (query_session db sid tid = Some s) as Hq
    by by apply query_session_Some.
  split.
  { intros Hst. unfold escalate_session. rewrite Hq. by rewrite decide_True. }
  intros Hst. split; [|split].
  - intros Hrej.
    destruct (escalated_columns_rejects sid s why auto kws Hrej) as [e He].
    exists e. unfold escalate_session. rewrite Hq.
    rewrite decide_False by (rewrite Hst; intros H; by apply H).
    by rewrite He.
  - intros Hnul Hlen. by apply varchar_fits.
  - intros stored Hwhy Hmeta.
    destruct (escalated_columns_accepts sid s why auto kws stored Hwhy Hmeta)
      as [meta Hcols].
    rewrite (escalate_session_passed _ _ _ _ _ _ _ _ s stored meta
               Hq Hst Hcols).
    destruct (find_available_staff db tid) as [|best rest].
    + eexists _, _, (set_metadata meta (set_escalated stored now s)).
      split; [reflexivity|]. split.
      { rewrite sessions_update_session, decide_True by done.
        by rewrite Hs. }
      simpl. repeat split; auto.
    + eexists _, _, (set_assigned (best.1) now'
                       (set_metadata meta (set_escalated stored now s))).
      split; [reflexivity|]. split.
      { rewrite sessions_assign_commit, decide_True by done.
        rewrite sessions_update_session, decide_True by done.
        by rewrite Hs. }
      simpl. repeat split; auto.
Qed.

Lemma escalate_session_guards_witness :
  (escalate_session 10 11 db_no_candidate "A" "T2" "help" false None
   = (db_no_candidate, Failure SessionNotFound))
  ∧ (escalate_session 10 11 db_reassign "X" "T" "help" false None
     = (db_reassign, Failure (AlreadyEscalated st_assigned)))
  ∧ (∃ e, escalate_session 10 11 db_no_candidate "A" "T" long_reason false None
          = (db_no_candidate, Failure (EscalateFailed e)))
  ∧ (∃ db' ok,
       escalate_session 10 11 db_no_candidate "A" "T" "help" true
         (Some ["help"]) = (db', Ok ok)
       ∧ status_of db' "A" = Some st_pending
       ∧ assignee_of db' "A" = None
       ∧ auto_assigned ok = false
       ∧ users db' = users db_no_candidate)
  ∧ (∃ db' ok,
       escalate_session 10 11 db_scenario "A" "T" "help" false None
       = (db', Ok ok)
       ∧ status_of db' "A" = Some st_assigned
       ∧ assignee_of db' "A" = Some "S1"
       ∧ auto_assigned ok = true).
Proof.
  split; [|split; [|split; [|split]]].
  - apply (escalate_session_guards 10 11 db_no_candidate "A" "T2").
    intros s Hs. vm_compute in Hs. injection Hs as <-. discriminate.
  - apply (proj2 (escalate_session_guards 10 11 db_reassign "X" "T" "help"
                    false None) (chat "T" (Some "SA") st_assigned));
      [reflexivity | reflexivity | discriminate].
  - destruct (proj2 (escalate_session_guards 10 11 db_no_candidate "A" "T"
                       long_reason false None)
                (chat "T" None st_none) eq_refl eq_refl) as [_ Hnone].
    destruct (Hnone eq_refl) as [Hrej _].
    apply Hrej. left. vm_compute. reflexivity.
  - destruct (proj2 (escalate_session_guards 10 11 db_no_candidate "A" "T"
                       "help" true (Some ["help"]))
                (chat "T" None st_none) eq_refl eq_refl) as [_ Hnone].
    destruct (Hnone eq_refl) as (_ & _ & Hacc).
    destruct (Hacc "help" eq_refl) as (db' & ok & s' & Hcall & Hs' & Hrest).
    { intros _. split; [discriminate|]. intros _ k Hk.
      apply list_elem_of_singleton in Hk as ->. reflexivity. }
    assert (find_available_staff db_no_candidate "T" = []) as Hfind
      by reflexivity.
    rewrite Hfind in Hrest.
    destruct Hrest as (_ & _ & _ & _ & Hst & Ha & _ & Hauto & _ & Hu).
    exists db', ok. unfold status_of, assignee_of. rewrite Hs'. simpl.
    rewrite Hst, Ha.
    split; [exact Hcall|]. split; [reflexivity|]. split; [reflexivity|].
    split; [exact Hauto | exact Hu].
  - destruct (proj2 (escalate_session_guards 10 11 db_scenario "A" "T"
                       "help" false None)
                (chat "T" None st_none) eq_refl eq_refl) as [_ Hnone].
    destruct (Hnone eq_refl) as (_ & _ & Hacc).
    destruct (Hacc "help" eq_refl) as (db' & ok & s' & Hcall & Hs' & Hrest);
      [discriminate|].
    assert (find_available_staff db_scenario "T"
            = [("S1", staff "T" "s1" online 1 0)]) as Hfind by reflexivity.
    rewrite Hfind in Hrest.
    destruct Hrest as (_ & _ & _ & _ & Hst & Ha & _ & Hauto & _).
    exists db', ok. unfold status_of, assignee_of. rewrite Hs'. simpl.
    rewrite Hst, Ha.
    split; [exact Hcall|]. split; [reflexivity|]. split; [reflexivity|].
    exact Hauto.
Defined.

(** C7, as the claim states it, fails: session A of tenant T exists with
    status 'none', both guards pass, and a reason of 501 characters makes
    the commit raise; the call returns "Failed to escalate session" and the
    store is as it was. *)
Lemma escalate_long_reason_counterexample :
  sessions db_no_candidate !! "A" = Some (chat "T" None st_none)
  ∧ char_length long_reason = 501%nat
  ∧ has_nul long_reason = false
  ∧ escalate_session 10 11 db_no_candidate "A" "T" long_reason false None
    = (db_no_candidate,
       Failure (EscalateFailed (StatementError "A" [long_reason])))
  ∧ success (escalate_session 10 11 db_no_candidate "A" "T" long_reason
               false None).2 = false.
Proof. vm_compute. repeat split; reflexivity. Qed.



(** C9.  [find_available_staff] returns exactly the supporters of the tenant
    that are 'online' or 'available' with
    [current_sessions_count < max_concurrent_sessions], each once, in
    ascending order of [current_sessions_count]; the automatic assignment
    of [escalate_session] goes to the head of that list, a candidate with
    the least load: every call that succeeds while there is a candidate
    has assigned the session to the head, and the call succeeds whenever
    the store takes the write of the escalation. *)
Theorem find_available_staff_least_loaded db tid :
  (∀ uid u,
     (uid, u) ∈ find_available_staff db tid ↔
     users db !! uid = Some u
     ∧ u_tenant_id u = tid ∧ role u = supporter
     ∧ (supporter_status u = online ∨ supporter_status u = available)
     ∧ (current_sessions_count u < max_concurrent_sessions u)%Z)
  ∧ NoDup (find_available_staff db tid).*1
  ∧ StronglySorted
      (fun a b => (current_sessions_count (a.2) ≤ current_sessions_count (b.2))%Z)
      (find_available_staff db tid)
  ∧ (∀ now now' sid why auto kws s best rest,
       query_session db sid tid = Some s → escalation_status s = st_none →
       find_available_staff db tid = best :: rest →
       (∀ r, r ∈ find_available_staff db tid →
             (current_sessions_count (best.2) ≤ current_sessions_count (r.2))%Z)
       ∧ (∀ db' ok,
            escalate_session now now' db sid tid why auto kws = (db', Ok ok) →
            auto_assigned ok = true
            ∧ e_assigned_user_id ok = Some (best.1)
            ∧ e_escalation_status ok = st_assigned
            ∧ assignee_of db' sid = Some (best.1))
       ∧ (is_Some (varchar REASON_WIDTH why) →
          (auto = true →
             (∀ kind, session_metadata s ≠ meta_other kind)
             ∧ (session_metadata s = meta_falsy →
                ∀ k, k ∈ default [] kws → has_nul k = false)) →
          ∃ db' ok,
            escalate_session now now' db sid tid why auto kws = (db', Ok ok)
            ∧ auto_assigned ok = true
            ∧ e_assigned_user_id ok = Some (best.1)
            ∧ e_escalation_status ok = st_assigned
            ∧ assignee_of db' sid = Some (best.1))).
Proof.
  split; [|split; [|split]].
  - intros uid u. rewrite find_available_staff_elem, eligible_true. done.
  - apply find_available_staff_NoDup.
  - apply find_available_staff_sorted.
  - intros now now' sid why auto kws s best rest Hq Hst Hfind.
    split; [|split].
    + by apply (find_available_staff_head db tid best rest).
    + intros db' ok Hcall.
      destruct (escalate_session_cases now now' db sid tid why auto kws)
        as [[e He]|(s0 & stored & meta & Hs0 & _ & _ & _
                    & [[Hnil _]|(best0 & rest0 & Hfind0 & Hres)])];
        [congruence|congruence|].
      rewrite Hfind in Hfind0. injection Hfind0 as <- <-.
      rewrite Hcall in Hres. injection Hres as -> ->.
      simpl. repeat split.
      unfold assignee_of.
      rewrite sessions_update_user, sessions_update_session,
        decide_True, Hs0 by done.
      done.
    + intros [stored Hwhy] Hmeta.
      destruct (escalated_columns_accepts sid s why auto kws stored Hwhy Hmeta)
        as [meta Hcols].
      rewrite (escalate_session_passed _ _ _ _ _ _ _ _ s stored meta
                 Hq Hst Hcols), Hfind.
      eexists _, _. split; [reflexivity|]. simpl. repeat split.
      unfold assignee_of.
      rewrite sessions_assign_commit, decide_True by done.
      rewrite sessions_update_session, decide_True by done.
      apply query_session_Some in Hq as [-> _]. done.
Qed.

Lemma find_available_staff_least_loaded_witness :
  find_available_staff db_scenario "T" = [("S1", staff "T" "s1" online 1 0)]
  ∧ ∃ db' ok,
      escalate_session 10 11 db_scenario "A" "T" "help" false None = (db', Ok ok)
      ∧ e_assigned_user_id ok = Some "S1"
      ∧ assignee_of db' "A" = Some "S1".
Proof.
  split; [reflexivity|].
  destruct (find_available_staff_least_loaded db_scenario "T")
    as (_ & _ & _ & Hpick).
  destruct (Hpick 10 11 "A" "help" false None (chat "T" None st_none)
              ("S1", staff "T" "s1" online 1 0) [] eq_refl eq_refl eq_refl)
    as (_ & _ & Hgo).
  destruct Hgo as (db' & ok & Hcall & _ & Hid & _ & Hassignee);
    [by eexists | discriminate |].
  exists db', ok.
  split; [exact Hcall|]. split; [exact Hid | exact Hassignee].
Defined.

(** ** The detector *)

Section Detect.
Context {lowering : StrLower}.

Lemma starts_with_spec p s :
  starts_with p s = true ↔ ∃ post, s = (p ++ post)%string.
Proof.
  revert s. induction p as [|a p IH]; intros s; simpl.
  - split; [intros _; by exists s | done].
  - destruct s as [|b s].
    + split; [done | intros [post [=]]].
    + rewrite andb_true_iff, Ascii.eqb_eq, IH. split.
      * intros [-> [post ->]]. by exists post.
      * intros [post [= -> ->]]. split; [done | by exists post].
Qed.

Lemma contains_spec needle hay :
  contains needle hay = true ↔
  ∃ pre post, hay = (pre ++ needle ++ post)%string.
Proof.
  induction hay as [|c hay IH]; simpl.
  - rewrite orb_false_r, starts_with_spec. split.
    + intros [post ->]. by exists ""%string, post.
    + intros [pre [post H]]. destruct pre as [|? ?]; [|discriminate H].
      by exists post.
  - rewrite orb_true_iff, starts_with_spec, IH. split.
    + intros [[post ->] | [pre [post ->]]].
      * by exists ""%string, post.
      * by exists (String c pre), post.
    + intros [pre [post H]]. destruct pre as [|c' pre]; simpl in H.
      * left. by exists post.
      * right. injection H as -> ->. by exists pre, post.
Qed.

Lemma keywords_to_check_app custom :
  keywords_to_check custom
  = (DEFAULT_ESCALATION_KEYWORDS ++ default [] custom)%list.
Proof.
  destruct custom as [[|k ks]|]; simpl; try reflexivity;
    by rewrite app_nil_r.
Qed.

Lemma confidence_of_bounds n :
  (0 <= confidence_of n)%Q ∧ (confidence_of n <= 1)%Q.
Proof.
  unfold confidence_of. split.
  - apply Q.min_glb; [|done]. unfold Qle; simpl. lia.
  - apply Q.le_min_r.
Qed.

Lemma confidence_of_cases n :
  if (3 <=? n)%nat then (confidence_of n == 1)%Q
  else (confidence_of n == Z.of_nat n # 3)%Q.
Proof.
  unfold confidence_of. destruct (Nat.leb_spec 3 n).
  - apply Q.min_r. unfold Qle; simpl. lia.
  - apply Q.min_l. unfold Qle; simpl. lia.
Qed.

Lemma detected_keywords_eq message custom :
  detected_keywords (detect_auto_escalation message custom)
  = List.filter (fun k => contains (str_lower k) (str_lower message))
      (DEFAULT_ESCALATION_KEYWORDS ++ default [] custom)%list.
Proof.
  rewrite <- keywords_to_check_app. reflexivity.
Qed.

Lemma should_escalate_eq message custom :
  should_escalate (detect_auto_escalation message custom)
  = (0 <? length (detected_keywords (detect_auto_escalation message custom)))%nat.
Proof. reflexivity. Qed.

Lemma confidence_eq message custom :
  confidence (detect_auto_escalation message custom)
  = confidence_of
      (length (detected_keywords (detect_auto_escalation message custom))).
Proof. reflexivity. Qed.

Lemma reason_eq message custom :
  reason (detect_auto_escalation message custom)
  = if should_escalate (detect_auto_escalation message custom)
    then Some (reason_of
                 (detected_keywords (detect_auto_escalation message custom)))
    else None.
Proof. reflexivity. Qed.

(** The record is a function of the detected list. *)
Lemma detect_auto_escalation_eq message custom :
  detect_auto_escalation message custom
  = let detected := detected_keywords (detect_auto_escalation message custom) in
    {| should_escalate := (0 <? length detected)%nat;
       detected_keywords := detected;
       confidence := confidence_of (length detected);
       reason := if (0 <? length detected)%nat
                 then Some (reason_of detected) else None |}.
Proof. reflexivity. Qed.

Lemma is_ascii_default :
  forallb is_ascii DEFAULT_ESCALATION_KEYWORDS = true.
Proof. vm_compute. reflexivity. Qed.

Lemma is_ascii_keywords custom :
  forallb is_ascii (default [] custom) = true →
  forallb is_ascii (DEFAULT_ESCALATION_KEYWORDS ++ default [] custom) = true.
Proof. intros Hc. by rewrite forallb_app, is_ascii_default, Hc. Qed.

(** On ASCII text the scan is the one with the capitals A..Z lowered. *)
Lemma detected_keywords_ascii message custom :
  is_ascii message = true →
  forallb is_ascii (default [] custom) = true →
  detected_keywords (detect_auto_escalation message custom)
  = List.filter (fun k => contains (ascii_lower k) (ascii_lower message))
      (DEFAULT_ESCALATION_KEYWORDS ++ default [] custom)%list.
Proof.
  intros Hm Hc. rewrite detected_keywords_eq.
  apply filter_ext_in. intros k Hk.
  rewrite (str_lower_ascii message Hm).
  pose proof (is_ascii_keywords custom Hc) as Hall.
  rewrite forallb_forall in Hall.
  by rewrite (str_lower_ascii k (Hall k Hk)).
Qed.

(** The reason, by the number of matches. *)
Lemma reason_of_cases (l : list string) :
  match l with
  | [] => (if (0 <? length l)%nat then Some (reason_of l) else None) = None
  | [a] =>
      (if (0 <? length l)%nat then Some (reason_of l) else None)
      = Some ("Detected 1 escalation keyword(s): " ++ a)
  | [a; b] =>
      (if (0 <? length l)%nat then Some (reason_of l) else None)
      = Some ("Detected 2 escalation keyword(s): " ++ a ++ ", " ++ b)
  | a :: b :: c :: rest =>
      (if (0 <? length l)%nat then Some (reason_of l) else None)
      = Some ("Detected " ++ str_of_nat (3 + length rest)
              ++ " escalation keyword(s): " ++ a ++ ", " ++ b ++ ", " ++ c)
  end.
Proof. destruct l as [|a [|b [|c rest]]]; reflexivity. Qed.

End Detect.

(** On ASCII text every [str.lower] gives the same detection. *)
Lemma detect_ascii_instance (lowering lowering' : StrLower) message custom :
  is_ascii message = true →
  forallb is_ascii (default [] custom) = true →
  detect_auto_escalation (lowering := lowering) message custom
  = detect_auto_escalation (lowering := lowering') message custom.
Proof.
  intros Hm Hc.
  rewrite (detect_auto_escalation_eq (lowering := lowering)).
  rewrite (detect_auto_escalation_eq (lowering := lowering')).
  by rewrite !detected_keywords_ascii.
Qed.

Lemma detect_examples {lowering : StrLower} :
  detect_auto_escalation "this is urgent, please help" None
  = {| should_escalate := true;
       detected_keywords := ["urgent"; "help"];
       confidence := 2 # 3;
       reason := Some "Detected 2 escalation keyword(s): urgent, help" |}
  ∧ detect_auto_escalation "This is URGENT, please Help" None
    = {| should_escalate := true;
         detected_keywords := ["urgent"; "help"];
         confidence := 2 # 3;
         reason := Some "Detected 2 escalation keyword(s): urgent, help" |}
  ∧ detect_auto_escalation "my REFUND is late" (Some ["Refund"])
    = {| should_escalate := true;
         detected_keywords := ["Refund"];
         confidence := 1 # 3;
         reason := Some "Detected 1 escalation keyword(s): Refund" |}
  ∧ detect_auto_escalation
      "Urgent: the app is BROKEN and I am angry, get me a Manager" None
    = {| should_escalate := true;
         detected_keywords := ["urgent"; "angry"; "broken"; "manager"];
         confidence := 1;
         reason :=
           Some "Detected 4 escalation keyword(s): urgent, angry, broken" |}
  ∧ detect_auto_escalation "good morning" None
    = {| should_escalate := false;
         detected_keywords := [];
         confidence := 0 # 3;
         reason := None |}.
Proof.
  repeat split;
    (rewrite (detect_ascii_instance lowering ascii_only);
     [vm_compute; reflexivity | reflexivity | reflexivity]).
Qed.

(** C10.  [detect_auto_escalation] keeps, in order and as they were given,
    the keywords of the default list extended with the custom ones whose
    lower-cased form is a substring of the lower-cased message;
    [should_escalate] says whether there is one; [confidence] is the minimum
    of a third of their number and one, so it lies between 0 and 1 and is 1
    from three matches on; the reason is absent without a match and
    otherwise gives their number followed by the first three of them,
    separated by ", ".  Lower case is [str.lower]: on ASCII text the
    capitals A..Z are lowered, so two ASCII messages that differ in the case
    of their letters only give the same result, and a keyword matches
    whatever the case it or the message is written in.  On "this is urgent,
    please help" it escalates with confidence 2/3, in (0,1], finds exactly
    "urgent" and "help" and gives the reason "Detected 2 escalation
    keyword(s): urgent, help"; "This is URGENT, please Help" gives the same
    result. *)
Theorem detect_auto_escalation_spec {lowering : StrLower} (message : string)
    (custom : option (list string)) :
  let d := detect_auto_escalation message custom in
  let kws := (DEFAULT_ESCALATION_KEYWORDS ++ default [] custom)%list in
  let n := length (detected_keywords d) in
  detected_keywords d
  = List.filter (fun k => contains (str_lower k) (str_lower message)) kws
  ∧ (∀ k, k ∈ detected_keywords d ↔
          k ∈ kws
          ∧ ∃ pre post, str_lower message = (pre ++ str_lower k ++ post)%string)
  ∧ (is_ascii message = true →
     forallb is_ascii (default [] custom) = true →
     (∀ k, k ∈ detected_keywords d ↔
           k ∈ kws
           ∧ ∃ pre post,
               ascii_lower message = (pre ++ ascii_lower k ++ post)%string)
     ∧ ∀ message',
         is_ascii message' = true →
         ascii_lower message' = ascii_lower message →
         detect_auto_escalation message' custom = d)
  ∧ should_escalate d = bool_decide (0 < n)%nat
  ∧ confidence d = Qmin (Z.of_nat n # 3) 1
  ∧ (0 <= confidence d)%Q ∧ (confidence d <= 1)%Q
  ∧ (if (3 <=? n)%nat then (confidence d == 1)%Q
     else (confidence d == Z.of_nat n # 3)%Q)
  ∧ match detected_keywords d with
    | [] => reason d = None
    | [a] => reason d = Some ("Detected 1 escalation keyword(s): " ++ a)
    | [a; b] =>
        reason d
        = Some ("Detected 2 escalation keyword(s): " ++ a ++ ", " ++ b)
    | a :: b :: c :: rest =>
        reason d
        = Some ("Detected " ++ str_of_nat (3 + length rest)
                ++ " escalation keyword(s): " ++ a ++ ", " ++ b ++ ", " ++ c)
    end
  ∧ (let e := detect_auto_escalation "this is urgent, please help" None in
     should_escalate e = true
     ∧ (0 < confidence e)%Q ∧ (confidence e <= 1)%Q
     ∧ "urgent" ∈ detected_keywords e ∧ "help" ∈ detected_keywords e
     ∧ detected_keywords e = ["urgent"; "help"]
     ∧ (confidence e == 2 # 3)%Q
     ∧ reason e = Some "Detected 2 escalation keyword(s): urgent, help"
     ∧ detect_auto_escalation "This is URGENT, please Help" None = e)
  ∧ (let e := detect_auto_escalation "my REFUND is late" (Some ["Refund"]) in
     detected_keywords e = ["Refund"]
     ∧ reason e = Some "Detected 1 escalation keyword(s): Refund")
  ∧ (let e := detect_auto_escalation
                "Urgent: the app is BROKEN and I am angry, get me a Manager"
                None in
     detected_keywords e = ["urgent"; "angry"; "broken"; "manager"]
     ∧ (confidence e == 1)%Q
     ∧ reason e
       = Some "Detected 4 escalation keyword(s): urgent, angry, broken")
  ∧ (let e := detect_auto_escalation "good morning" None in
     should_escalate e = false ∧ detected_keywords e = []
     ∧ (confidence e == 0)%Q ∧ reason e = None).
Proof.
  intros d kws n.
  pose proof (detected_keywords_eq message custom) as Hdet.
  fold d kws in Hdet.
  split; [exact Hdet|]. split.
  { intros k. rewrite Hdet, list_elem_of_In, filter_In, <- list_elem_of_In,
      contains_spec. done. }
  split.
  { intros Hm Hc. split.
    - intros k. unfold d.
      rewrite (detected_keywords_ascii message custom Hm Hc).
      fold kws.
      rewrite list_elem_of_In, filter_In, <- list_elem_of_In, contains_spec.
      done.
    - intros message' Hm' Hlow. unfold d.
      rewrite (detect_auto_escalation_eq message').
      rewrite (detect_auto_escalation_eq message).
      rewrite (detected_keywords_ascii message' custom Hm' Hc).
      rewrite (detected_keywords_ascii message custom Hm Hc).
      by rewrite Hlow. }
  split.
  { unfold d. rewrite should_escalate_eq. fold d n. by destruct n. }
  split; [apply confidence_eq|].
  split; [unfold d; rewrite confidence_eq; apply confidence_of_bounds|].
  split; [unfold d; rewrite confidence_eq; apply confidence_of_bounds|].
  split.
  { unfold d. rewrite confidence_eq. fold d n. apply (confidence_of_cases n). }
  split.
  { unfold d. rewrite reason_eq, should_escalate_eq.
    apply (reason_of_cases
             (detected_keywords (detect_auto_escalation message custom))). }
  destruct (detect_examples (lowering := lowering))
    as (E1 & E2 & E3 & E4 & E5).
  split.
  { cbv zeta. rewrite E2, E1. cbn [should_escalate confidence detected_keywords
                                   reason].
    split; [done|]. split; [done|]. split; [discriminate|].
    split; [left|]. split; [right; left|].
    split; [done|]. split; [done|]. split; done. }
  split.
  { cbv zeta. rewrite E3. split; reflexivity. }
  split.
  { cbv zeta. rewrite E4. split; [reflexivity|]. split; reflexivity. }
  cbv zeta. rewrite E5. split; [reflexivity|]. split; [reflexivity|].
  split; reflexivity.
Qed.

(** ** What a call writes *)

Section Effects.

Lemma assign_user_effect now db sid tid uid :
  (success (assign_user now db sid tid uid).2 = false
   ∧ (assign_user now db sid tid uid).1 = db)
  ∨ ∃ s u,
      success (assign_user now db sid tid uid).2 = true
      ∧ sessions db !! sid = Some s ∧ s_tenant_id s = tid
      ∧ assignable (escalation_status s) = true
      ∧ users db !! uid = Some u ∧ u_tenant_id u = tid
      ∧ (current_sessions_count u < max_concurrent_sessions u)%Z
      ∧ (assign_user now db sid tid uid).1
        = update_user uid (set_count (current_sessions_count u + 1))
            (update_session sid (set_assigned uid now) db).
Proof.
  unfold assign_user.
  destruct (assign_check db sid tid uid) as [[s u]|e] eqn:Hc; [|by left].
  right. exists s, u.
  apply assign_check_Ok in Hc as (Hq & Ha & Hu & _ & Hlt).
  apply query_session_Some in Hq as [Hs Ht].
  apply query_supporter_Some in Hu as (Hu & Hut & _).
  done.
Qed.

Lemma release_assignee_effect s db :
  release_assignee s db = db
  ∨ ∃ uid u,
      assigned_user_id s = Some uid ∧ users db !! uid = Some u
      ∧ (0 < current_sessions_count u)%Z
      ∧ release_assignee s db
        = update_user uid (set_count (current_sessions_count u - 1)) db.
Proof.
  unfold release_assignee, query_user_by_id.
  destruct (assigned_user_id s) as [uid|]; [|by left].
  destruct (users db !! uid) as [u|] eqn:Hu; [|by left].
  destruct (Z.ltb_spec 0 (current_sessions_count u)); [|by left].
  right. by exists uid, u.
Qed.

Lemma resolve_escalation_effect db sid tid notes :
  (success (resolve_escalation db sid tid notes).2 = false
   ∧ (resolve_escalation db sid tid notes).1 = db)
  ∨ ∃ s meta,
      success (resolve_escalation db sid tid notes).2 = true
      ∧ sessions db !! sid = Some s ∧ s_tenant_id s = tid
      ∧ escalation_status s ≠ st_none
      ∧ resolved_metadata sid s notes = inr meta
      ∧ (resolve_escalation db sid tid notes).1
        = update_session sid (fun x => set_metadata meta (set_resolved x))
            (release_assignee s db).
Proof.
  destruct (resolve_escalation_cases db sid tid notes)
    as [[e ->]|(s & meta & Hs & Ht & Hst & Hmeta & ->)]; [by left|].
  right. by exists s, meta.
Qed.

Lemma escalate_session_effect now now' db sid tid why auto kws :
  (success (escalate_session now now' db sid tid why auto kws).2 = false
   ∧ (escalate_session now now' db sid tid why auto kws).1 = db)
  ∨ ∃ s stored meta,
      success (escalate_session now now' db sid tid why auto kws).2 = true
      ∧ sessions db !! sid = Some s ∧ s_tenant_id s = tid
      ∧ escalation_status s = st_none
      ∧ escalated_columns sid s why auto kws = inr (stored, meta)
      ∧ ((find_available_staff db tid = []
          ∧ (escalate_session now now' db sid tid why auto kws).1
            = update_session sid
                (fun x => set_metadata meta (set_escalated stored now x)) db)
         ∨ ∃ best rest,
             find_available_staff db tid = best :: rest
             ∧ (escalate_session now now' db sid tid why auto kws).1
               = update_user (best.1)
                   (set_count (current_sessions_count (best.2) + 1))
                   (update_session sid
                      (fun x => set_assigned (best.1) now'
                                  (set_metadata meta
                                     (set_escalated stored now x))) db)).
Proof.
  destruct (escalate_session_cases now now' db sid tid why auto kws)
    as [[e ->]|(s & stored & meta & Hs & Ht & Hst & Hcols
                & [[Hfind ->]|(best & rest & Hfind & ->)])]; [by left| |].
  - right. exists s, stored, meta. repeat (split; [done|]). by left.
  - right. exists s, stored, meta. repeat (split; [done|]).
    right. by exists best, rest.
Qed.

End Effects.

(** ** Failures, tenants and the order of statuses *)

Section Isolation.

Lemma exec_cases o db :
  (exec_success o db = false ∧ exec o db = db)
  ∨ ∃ s f,
      exec_success o db = true
      ∧ sessions db !! op_session o = Some s
      ∧ s_tenant_id s = op_tenant o
      ∧ s_tenant_id (f s) = s_tenant_id s
      ∧ (status_rank (escalation_status s) ≤ status_rank (escalation_status (f s)))%nat
      ∧ sessions (exec o db) = alter f (op_session o) (sessions db)
      ∧ (users (exec o db) = users db
         ∨ ∃ uid u c,
             users db !! uid = Some u
             ∧ users (exec o db) = alter (set_count c) uid (users db)
             ∧ (u_tenant_id u = op_tenant o
                ∨ ∃ sid tid notes, o = Resolve sid tid notes)).
Proof.
  destruct o as [now now' sid tid why auto kws | now sid tid uid | sid tid notes];
    simpl.
  - destruct (escalate_session_effect now now' db sid tid why auto kws)
      as [?|(s & stored & meta & Hok & Hs & Ht & Hst & _ & Hdb)]; [by left|].
    right. destruct Hdb as [[Hnil ->] | (best & rest & Hfind & ->)].
    + exists s, (fun x => set_metadata meta (set_escalated stored now x)).
      rewrite Hst. simpl.
      split; [done|]. split; [done|]. split; [done|]. split; [done|].
      split; [lia|]. split; [done|]. by left.
    + exists s, (fun x => set_assigned (best.1) now'
                            (set_metadata meta (set_escalated stored now x))).
      rewrite Hst. simpl. split; [done|]. split; [done|]. split; [done|].
      split; [done|]. split; [lia|]. split; [done|].
      right. apply find_available_staff_head in Hfind as (Hu & He & _).
      apply eligible_true in He as (Hten & _).
      exists (best.1), (best.2), (current_sessions_count (best.2) + 1).
      split; [done|]. split; [done|]. by left.
  - destruct (assign_user_effect now db sid tid uid)
      as [?|(s & u & Hok & Hs & Ht & Ha & Hu & Hut & Hlt & ->)]; [by left|].
    right. exists s, (set_assigned uid now). simpl.
    split; [done|]. split; [done|]. split; [done|]. split; [done|].
    split; [destruct (escalation_status s); simpl in *; try done; lia|].
    split; [done|].
    right. exists uid, u, (current_sessions_count u + 1). by auto.
  - destruct (resolve_escalation_effect db sid tid notes)
      as [?|(s & meta & Hok & Hs & Ht & Hst & _ & ->)]; [by left|].
    right. exists s, (fun x => set_metadata meta (set_resolved x)). simpl.
    split; [done|]. split; [done|]. split; [done|]. split; [done|].
    split; [destruct (escalation_status s); simpl; lia|].
    split; [by rewrite sessions_release_assignee|].
    destruct (release_assignee_effect s db) as [->|(uid & u & _ & Hu & _ & ->)];
      [by left|].
    right. exists uid, u, (current_sessions_count u - 1).
    split; [done|]. split; [done|]. right. by exists sid, tid, notes.
Qed.

Lemma exec_status o db s :
  exec_success o db = true → sessions db !! op_session o = Some s →
  (escalation_status s = st_none ↔ is_escalate o = true)
  ∧ ∀ s', sessions (exec o db) !! op_session o = Some s' →
          escalation_status s' ≠ st_none.
Proof.
  intros Hok Hs.
  destruct o as [now now' sid tid why auto kws | now sid tid uid | sid tid notes];
    simpl in *.
  - destruct (escalate_session_effect now now' db sid tid why auto kws)
      as [[Hf _]|(s0 & stored & meta & _ & Hs0 & _ & Hst & _ & Hdb)];
      [congruence|].
    rewrite Hs in Hs0. injection Hs0 as <-. split; [done|].
    intros s'. destruct Hdb as [[_ ->] | (best & rest & _ & ->)].
    + rewrite sessions_update_session, decide_True, Hs by done.
      intros [= <-]. simpl. discriminate.
    + rewrite sessions_update_user, sessions_update_session,
        decide_True, Hs by done.
      intros [= <-]. simpl. discriminate.
  - destruct (assign_user_effect now db sid tid uid)
      as [[Hf _]|(s0 & u & _ & Hs0 & _ & Ha & _ & _ & _ & ->)]; [congruence|].
    rewrite Hs in Hs0. injection Hs0 as <-. split.
    + split; [|done]. intros Heq. by rewrite Heq in Ha.
    + intros s'. rewrite sessions_update_user, sessions_update_session,
        decide_True, Hs by done.
      intros [= <-]. simpl. discriminate.
  - destruct (resolve_escalation_effect db sid tid notes)
      as [[Hf _]|(s0 & meta & _ & Hs0 & _ & Hst & _ & ->)]; [congruence|].
    rewrite Hs in Hs0. injection Hs0 as <-. split; [done|].
    intros s'. rewrite sessions_update_session, decide_True by done.
    rewrite sessions_release_assignee, Hs. intros [= <-]. simpl. discriminate.
Qed.

Lemma run_columns_kept ops db :
  (∀ uid, profile <$> users (run ops db) !! uid = profile <$> users db !! uid)
  ∧ (∀ k, s_tenant_id <$> sessions (run ops db) !! k
          = s_tenant_id <$> sessions db !! k).
Proof.
  revert db. induction ops as [|o ops IH]; intros db; [done|].
  simpl. destruct (IH (exec o db)) as [IHu IHs].
  destruct (exec_cases o db)
    as [[_ ->]|(s & f & _ & Hs & _ & Hten & _ & Hsess & Husers)]; [done|].
  split.
  - intros uid. rewrite IHu.
    destruct Husers as [->|(uid' & u & c & Hu & -> & _)]; [done|].
    rewrite lookup_alter. case_decide as Hk; [|done].
    subst uid'. by rewrite Hu.
  - intros k. rewrite IHs, Hsess, lookup_alter.
    case_decide as Hk; [|done]. subst k. rewrite Hs. simpl. by rewrite Hten.
Qed.

Lemma run_status_forward ops db k st :
  status_of db k = Some st →
  ∃ st', status_of (run ops db) k = Some st'
         ∧ (status_rank st ≤ status_rank st')%nat.
Proof.
  revert db st. induction ops as [|o ops IH]; intros db st Hst.
  { exists st. done. }
  simpl.
  assert (∃ st1, status_of (exec o db) k = Some st1
                 ∧ (status_rank st ≤ status_rank st1)%nat) as (st1 & H1 & Hle1).
  { destruct (exec_cases o db)
      as [[_ ->]|(s & f & _ & Hs & _ & _ & Hrank & Hsess & _)];
      [by exists st|].
    unfold status_of in *. rewrite Hsess, lookup_alter.
    case_decide as Hk; [|by exists st].
    subst k. rewrite Hs in Hst |- *. simpl in *. injection Hst as <-.
    by eexists. }
  destruct (IH _ _ H1) as (st' & H' & Hle'). exists st'. split; [done|lia].
Qed.

End Isolation.

(** X1.  A call that reports failure has written nothing: the store after it
    is the store before it. *)
Theorem failed_call_leaves_store (o : Op) (db : DB) :
  exec_success o db = false → exec o db = db.
Proof.
  intros Hfail.
  destruct (exec_cases o db) as [[_ ?]|(s & f & Hok & _)]; [done|].
  rewrite Hok in Hfail. discriminate.
Qed.

Lemma failed_call_leaves_store_witness :
  exec (Assign 20 "B" "T" "S2") db_scenario = db_scenario
  ∧ exec (Resolve "A" "T" None) db_scenario = db_scenario.
Proof.
  split; apply failed_call_leaves_store; reflexivity.
Defined.

(** X2.  A session id that the tenant does not own (no such row, or a row of
    another tenant) makes all three methods fail with "Session not found",
    and nothing is written. *)
Theorem foreign_session_not_found (db : DB) (sid tid : string) :
  (∀ s, sessions db !! sid = Some s → s_tenant_id s ≠ tid) →
  (∀ now now' why auto kws,
     escalate_session now now' db sid tid why auto kws
     = (db, Failure SessionNotFound))
  ∧ (∀ now uid, assign_user now db sid tid uid = (db, Failure SessionNotFound))
  ∧ (∀ notes, resolve_escalation db sid tid notes = (db, Failure SessionNotFound)).
Proof.
  intros Hforeign.
  assert (query_session db sid tid = None) as Hq.
  { destruct (query_session db sid tid) as [s|] eqn:Hq; [|done].
    apply query_session_Some in Hq as [Hs Ht]. by destruct (Hforeign s Hs). }
  unfold escalate_session, assign_user, assign_check, resolve_escalation.
  rewrite Hq. done.
Qed.

Lemma foreign_session_not_found_witness :
  resolve_escalation db_cross_tenant "X" "T2" None
  = (db_cross_tenant, Failure SessionNotFound)
  ∧ assign_user 20 db_cross_tenant "X" "T2" "U2"
    = (db_cross_tenant, Failure SessionNotFound).
Proof.
  assert (∀ s, sessions db_cross_tenant !! "X" = Some s → s_tenant_id s ≠ "T2")
    as Hforeign.
  { intros s Hs.
    assert (sessions db_cross_tenant !! "X"
            = Some (chat "T1" (Some "U2") st_assigned)) as Hx by reflexivity.
    rewrite Hx in Hs. injection Hs as <-. simpl. discriminate. }
  destruct (foreign_session_not_found db_cross_tenant "X" "T2" Hforeign)
    as (_ & Ha & Hr).
  split; [apply Hr | apply Ha].
Defined.

(** X3.  Calls made for one tenant never change a session row of another
    tenant, over any sequence of calls. *)
Theorem other_tenants_sessions_untouched (tid : string) (ops : list Op)
    (db : DB) (k : string) (s : ChatSession) :
  Forall (fun o => op_tenant o = tid) ops →
  sessions db !! k = Some s → s_tenant_id s ≠ tid →
  sessions (run ops db) !! k = Some s.
Proof.
  intros Hops. revert db. induction Hops as [|o ops Ho _ IH]; intros db Hs Ht;
    [done|].
  simpl. apply IH; [|done].
  destruct (exec_cases o db) as [[_ ->]|(s0 & f & _ & Hs0 & Ht0 & _ & _ & -> & _)];
    [done|].
  rewrite lookup_alter. case_decide as Hk; [|done].
  subst k. rewrite Hs in Hs0. injection Hs0 as <-. congruence.
Qed.

Lemma other_tenants_sessions_untouched_witness :
  sessions (run [Resolve "X" "T2" None; Assign 20 "X" "T2" "U2"] db_cross_tenant)
    !! "X"
  = Some (chat "T1" (Some "U2") st_assigned).
Proof.
  apply (other_tenants_sessions_untouched "T2").
  - repeat constructor.
  - reflexivity.
  - simpl. discriminate.
Defined.

(** X4.  No sequence of calls creates or deletes a row, moves a session to
    another tenant, or changes the tenant, username, display name, role,
    availability or maximum of a user. *)
Theorem rows_and_profile_columns_kept (ops : list Op) (db : DB) :
  (∀ uid,
     (fun u => (u_tenant_id u, username u, display_name u, role u,
                supporter_status u, max_concurrent_sessions u))
       <$> users (run ops db) !! uid
     = (fun u => (u_tenant_id u, username u, display_name u, role u,
                  supporter_status u, max_concurrent_sessions u))
         <$> users db !! uid)
  ∧ (∀ k, s_tenant_id <$> sessions (run ops db) !! k
          = s_tenant_id <$> sessions db !! k).
Proof.
  destruct (run_columns_kept ops db) as [Hu Hs]. split; [|exact Hs].
  intros uid. specialize (Hu uid).
  destruct (users (run ops db) !! uid) as [u'|], (users db !! uid) as [u|];
    simpl in *; try done.
  injection Hu as Hu. destruct u', u. unfold profile, set_count in Hu.
  simpl in *. congruence.
Qed.

(** X5.  [escalate_session] and [assign_user] called for a tenant leave the
    user rows of every other tenant as they are. *)
Theorem claims_stay_in_tenant (o : Op) (db : DB) (uid : string) (u : User) :
  (∀ sid tid notes, o ≠ Resolve sid tid notes) →
  users db !! uid = Some u → u_tenant_id u ≠ op_tenant o →
  users (exec o db) !! uid = Some u.
Proof.
  intros Hnot Hu Hten.
  destruct (exec_cases o db) as [[_ ->]|(s & f & _ & _ & _ & _ & _ & _ & Husers)];
    [done|].
  destruct Husers as [->|(uid' & u' & c & Hu' & -> & Hwho)]; [done|].
  rewrite lookup_alter. case_decide as Hk; [|done]. subst uid'.
  rewrite Hu in Hu'. injection Hu' as <-.
  destruct Hwho as [?|(sid & tid & notes & ->)]; [done|].
  by destruct (Hnot sid tid notes).
Qed.

Lemma claims_stay_in_tenant_witness :
  users (exec (Escalate 10 11 "X" "T1" "help" false None)
              {| users := users db_cross_tenant;
                 sessions := {["X" := chat "T1" None st_none]} |}) !! "U2"
  = Some (staff "T2" "u2" online 5 1).
Proof.
  apply claims_stay_in_tenant.
  - intros sid tid notes. discriminate.
  - reflexivity.
  - simpl. discriminate.
Defined.

(** X6.  Statuses only move forward in the order 'none', 'pending',
    'assigned', 'resolved': whatever the calls, a session never returns to
    an earlier status; in particular a resolved session stays resolved. *)
Theorem status_only_moves_forward (ops : list Op) (db : DB) (k : string)
    (st : EscalationStatus) :
  status_of db k = Some st →
  ∃ st', status_of (run ops db) k = Some st'
         ∧ (status_rank st ≤ status_rank st')%nat.
Proof. apply run_status_forward. Qed.

Lemma status_only_moves_forward_witness :
  ∃ st', status_of (run [ Escalate 10 11 "X" "T" "again" false None;
                          Assign 20 "X" "T" "SB";
                          Resolve "X" "T" None;
                          Escalate 30 31 "X" "T" "again" false None ]
                        db_reassign) "X" = Some st'
         ∧ (status_rank st_assigned ≤ status_rank st')%nat.
Proof. apply status_only_moves_forward. reflexivity. Defined.

(** X7.  A session is escalated at most once in its life: after a
    successful [escalate_session], every later [escalate_session] of that
    session fails with "Session already escalated", whatever was called in
    between, resolve included. *)
Theorem escalated_at_most_once now now' db sid tid why auto kws db1 ok :
  escalate_session now now' db sid tid why auto kws = (db1, Ok ok) →
  ∀ ops now2 now2' why2 auto2 kws2,
    ∃ st, escalate_session now2 now2' (run ops db1) sid tid why2 auto2 kws2
          = (run ops db1, Failure (AlreadyEscalated st))
          ∧ st ≠ st_none.
Proof.
  intros Hcall ops now2 now2' why2 auto2 kws2.
  set (o := Escalate now now' sid tid why auto kws).
  assert (exec o db = db1) as Hexec by (simpl; by rewrite Hcall).
  assert (exec_success o db = true) as Hok by (simpl; by rewrite Hcall).
  destruct (exec_cases o db)
    as [[Hfail _]|(s & f & _ & Hs & Ht & Hten & _ & Hsess & _)];
    [congruence|].
  simpl in Hs, Ht. rewrite Hexec in Hsess. simpl in Hsess.
  assert (sessions db1 !! sid = Some (f s)) as Hs1.
  { rewrite Hsess, lookup_alter, decide_True by done. by rewrite Hs. }
  destruct (exec_status o db s Hok Hs) as [_ Hne1].
  rewrite Hexec in Hne1. specialize (Hne1 (f s) Hs1).
  destruct (run_status_forward ops db1 sid (escalation_status (f s)))
    as (st2 & Hst2 & Hle); [unfold status_of; by rewrite Hs1|].
  destruct (run_columns_kept ops db1) as [_ Hk].
  specialize (Hk sid). rewrite Hs1 in Hk. simpl in Hk.
  unfold status_of in Hst2.
  destruct (sessions (run ops db1) !! sid) as [s2|] eqn:Hs2; [|done].
  simpl in Hk, Hst2. injection Hk as Hk. injection Hst2 as Hst2.
  assert (st2 ≠ st_none) as Hne.
  { intros ->. destruct (escalation_status (f s)); simpl in Hle; [done|lia..]. }
  exists st2. split; [|done].
  unfold escalate_session.
  assert (query_session (run ops db1) sid tid = Some s2) as ->
    by (apply query_session_Some; split; congruence).
  rewrite decide_True by congruence. by rewrite Hst2.
Qed.

Lemma escalated_at_most_once_witness :
  ∃ st, escalate_session 30 31
          (run [Resolve "A" "T" None]
               (escalate_session 10 11 db_scenario "A" "T" "help" false None).1)
          "A" "T" "again" false None
        = (run [Resolve "A" "T" None]
               (escalate_session 10 11 db_scenario "A" "T" "help" false None).1,
           Failure (AlreadyEscalated st))
        ∧ st ≠ st_none.
Proof.
  eapply (escalated_at_most_once 10 11 db_scenario "A" "T" "help" false None).
  vm_compute. reflexivity.
Defined.

(** ** Counters and assigned sessions *)

Section Counting.

Lemma length_filter_Permutation {A} (p : A → bool) (l1 l2 : list A) :
  l1 ≡ₚ l2 → length (List.filter p l1) = length (List.filter p l2).
Proof.
  induction 1 as [|x l1 l2 _ IH|x y l|l1 l2 l3 _ IH1 _ IH2]; simpl.
  - done.
  - destruct (p x); simpl; by rewrite IH.
  - destruct (p x), (p y); done.
  - by rewrite IH1.
Qed.

Lemma length_filter_alter {A} (p : string * A → bool) (m : gmap string A)
    (i : string) (x : A) (f : A → A) :
  m !! i = Some x →
  (length (List.filter p (map_to_list (alter f i m)))
   + (if p (i, x) then 1 else 0)
   = length (List.filter p (map_to_list m))
     + (if p (i, f x) then 1 else 0))%nat.
Proof.
  intros Hx.
  assert (alter f i m = <[i := f x]> (delete i m)) as ->.
  { apply map_eq. intros k. rewrite lookup_alter, lookup_insert.
    case_decide as Hk; [by rewrite Hx|]. by rewrite lookup_delete_ne. }
  rewrite (length_filter_Permutation p _ _
             (map_to_list_insert (delete i m) i (f x) (lookup_delete_eq m i))).
  rewrite <- (length_filter_Permutation p _ _ (map_to_list_delete m i x Hx)).
  simpl. destruct (p (i, f x)), (p (i, x)); simpl; lia.
Qed.

Lemma load_alter db db' sid s f uid :
  sessions db !! sid = Some s →
  sessions db' = alter f sid (sessions db) →
  (length (sessions_assigned_to db' uid) + (if occupies uid s then 1 else 0)
   = length (sessions_assigned_to db uid)
     + (if occupies uid (f s) then 1 else 0))%nat.
Proof.
  intros Hs Hdb'. unfold sessions_assigned_to. rewrite !length_fmap, Hdb'.
  apply (length_filter_alter (fun r => occupies uid (r.2))
           (sessions db) sid s f Hs).
Qed.

Lemma occupies_true uid s :
  occupies uid s = true ↔
  escalation_status s = st_assigned ∧ assigned_user_id s = Some uid.
Proof.
  unfold occupies. by rewrite andb_true_iff, !bool_decide_eq_true.
Qed.

Lemma occupies_not_assigned uid s :
  escalation_status s ≠ st_assigned → occupies uid s = false.
Proof.
  intros Hst. destruct (occupies uid s) eqn:Ho; [|done].
  apply occupies_true in Ho as [? _]. done.
Qed.

Lemma occupies_set_assigned uid target now s :
  occupies uid (set_assigned target now s) = bool_decide (target = uid).
Proof.
  destruct (occupies uid (set_assigned target now s)) eqn:Ho.
  - apply occupies_true in Ho as [_ [= ->]]. by rewrite bool_decide_eq_true_2.
  - symmetry. apply bool_decide_eq_false_2. intros ->.
    assert (occupies uid (set_assigned uid now s) = true) as Hyes
      by by apply occupies_true.
    congruence.
Qed.

(** A claim on a session that occupied no slot. *)
Lemma consistent_claim db sid s f target u :
  counters_consistent db →
  sessions db !! sid = Some s → escalation_status s ≠ st_assigned →
  users db !! target = Some u →
  (∀ uid, occupies uid (f s) = bool_decide (target = uid)) →
  counters_consistent
    {| users := alter (set_count (current_sessions_count u + 1)) target (users db);
       sessions := alter f sid (sessions db) |}.
Proof.
  intros Hc Hs Hst Hu Hocc uid v. simpl. rewrite lookup_alter.
  pose proof (load_alter db
                {| users := alter (set_count (current_sessions_count u + 1))
                              target (users db);
                   sessions := alter f sid (sessions db) |}
                sid s f uid Hs eq_refl) as Hload.
  rewrite (occupies_not_assigned uid s Hst), Hocc in Hload.
  case_decide as Hk.
  - subst uid. rewrite Hu. intros [= <-]. simpl.
    rewrite bool_decide_eq_true_2 in Hload by done. cbv iota in Hload.
    pose proof (Hc target u Hu). lia.
  - intros Hv. rewrite bool_decide_eq_false_2 in Hload by done.
    cbv iota in Hload. pose proof (Hc uid v Hv). lia.
Qed.

Lemma exec_consistent o db :
  counters_consistent db → assignee_tracks_status db → first_time o db →
  counters_consistent (exec o db).
Proof.
  intros Hc Htr Hfirst.
  destruct o as [now now' sid tid why auto kws | now sid tid uid | sid tid notes];
    simpl in *.
  - destruct (escalate_session_effect now now' db sid tid why auto kws)
      as [[_ ->]|(s & stored & meta & _ & Hs & _ & Hst & _ & Hdb)]; [done|].
    destruct Hdb as [[_ ->] | (best & rest & Hfind & ->)].
    + intros uid v Hv.
      pose proof (load_alter db
                    (update_session sid
                       (fun x => set_metadata meta (set_escalated stored now x))
                       db)
                    sid s _ uid Hs eq_refl) as Hload.
      rewrite !occupies_not_assigned in Hload by (simpl; congruence).
      pose proof (Hc uid v Hv). lia.
    + apply find_available_staff_head in Hfind as (Hu & _ & _).
      apply (consistent_claim db sid s _ (best.1) (best.2)); try done.
      * congruence.
      * intros uid.
        apply (occupies_set_assigned uid (best.1) now'
                 (set_metadata meta (set_escalated stored now s))).
  - destruct (assign_user_effect now db sid tid uid)
      as [[_ ->]|(s & u & _ & Hs & _ & Ha & Hu & _ & _ & ->)]; [done|].
    apply (consistent_claim db sid s _ uid u); try done.
    + intros Hst. apply Hfirst. unfold status_of. rewrite Hs. simpl. by rewrite Hst.
    + intros uid'. apply occupies_set_assigned.
  - destruct (resolve_escalation_effect db sid tid notes)
      as [[_ ->]|(s & meta & _ & Hs & _ & Hst & _ & ->)]; [done|].
    assert (escalation_status s ≠ st_resolved) as Hnr.
    { intros Heq. apply Hfirst. unfold status_of. rewrite Hs. simpl. by rewrite Heq. }
    destruct (Htr sid s Hs) as [Hhas Honly].
    assert (∀ uid', occupies uid' (set_metadata meta (set_resolved s)) = false)
      as Hafter by (intros uid'; by apply occupies_not_assigned).
    intros uid v Hv.
    pose proof (load_alter db
                  (update_session sid
                     (fun x => set_metadata meta (set_resolved x))
                     (release_assignee s db))
                  sid s (fun x => set_metadata meta (set_resolved x)) uid Hs
                  ltac:(simpl; by rewrite sessions_release_assignee)) as Hload.
    rewrite Hafter in Hload.
    simpl in Hv.
    destruct (release_assignee_effect s db)
      as [Hsame|(a & u & Hsa & Hu & Hpos & Hrel)].
    + rewrite Hsame in Hv. pose proof (Hc uid v Hv) as Hcv.
      destruct (occupies uid s) eqn:Ho; [|lia].
      apply occupies_true in Ho as [_ Hsa].
      (* the assignee row exists with a zero counter, or is missing *)
      unfold release_assignee, query_user_by_id in Hsame.
      rewrite Hsa, Hv in Hsame.
      destruct (Z.ltb_spec 0 (current_sessions_count v)) as [Hpos|Hzero].
      * exfalso. assert (users (update_user uid
                    (set_count (current_sessions_count v - 1)) db) !! uid
                         = users db !! uid) as Habs by by rewrite Hsame.
        rewrite users_update_user, decide_True, Hv in Habs by done.
        simpl in Habs. injection Habs as Habs.
        apply (f_equal current_sessions_count) in Habs. simpl in Habs. lia.
      * lia.
    + rewrite Hrel, users_update_user in Hv.
      assert (escalation_status s = st_assigned) as Hsass.
      { destruct (Honly ltac:(by rewrite Hsa)); [done|by destruct Hnr]. }
      case_decide as Hk.
      * subst a. rewrite Hu in Hv. injection Hv as <-. simpl.
        assert (occupies uid s = true) as Ho by by apply occupies_true.
        rewrite Ho in Hload. pose proof (Hc uid u Hu). lia.
      * assert (occupies uid s = false) as Ho.
        { destruct (occupies uid s) eqn:Ho; [|done].
          apply occupies_true in Ho as [_ Hsa']. congruence. }
        rewrite Ho in Hload. pose proof (Hc uid v Hv). lia.
Qed.

Lemma run_consistent ops db :
  counters_consistent db → assignee_tracks_status db →
  all_first_time ops db →
  counters_consistent (run ops db) ∧ assignee_tracks_status (run ops db).
Proof.
  revert db. induction ops as [|o ops IH]; intros db Hc Htr Hall; [done|].
  destruct Hall as [Hfirst Hrest]. simpl. apply IH; [| |done].
  - by apply exec_consistent.
  - by apply exec_tracks.
Qed.

Lemma run_load_bound ops db : load_bound db → load_bound (run ops db).
Proof.
  revert db. induction ops as [|o ops IH]; intros db Hb; [done|].
  simpl. apply IH, exec_load_bound, Hb.
Qed.

End Counting.

(** X8.  Counters stay exact as long as no assigned session is reassigned
    and no resolved session is resolved again: when every staff counter
    equals the number of sessions assigned to that staff member, and
    assignees sit only on assigned or resolved sessions, both still hold
    after any such sequence of calls. *)
Theorem counters_stay_exact (ops : list Op) (db : DB) :
  counters_consistent db → assignee_tracks_status db →
  all_first_time ops db →
  counters_consistent (run ops db) ∧ assignee_tracks_status (run ops db).
Proof. apply run_consistent. Qed.

Lemma counters_stay_exact_witness :
  counters_consistent
    (run [ Assign 20 "A" "T" "S1"; Resolve "A" "T" None; Assign 21 "B" "T" "S1" ]
         db_last_slot)
  ∧ count_of
      (run [ Assign 20 "A" "T" "S1"; Resolve "A" "T" None; Assign 21 "B" "T" "S1" ]
           db_last_slot) "S1" = Some 1.
Proof.
  split; [|reflexivity].
  apply counters_stay_exact.
  - apply (map_Forall_to_list
             (fun uid u => current_sessions_count u
                = Z.of_nat (length (sessions_assigned_to db_last_slot uid)))).
    vm_compute. repeat constructor.
  - apply map_Forall_to_list. vm_compute.
    repeat (apply List.Forall_cons;
            [split; [intros H; discriminate H | intros [x Hx]; discriminate Hx]|]).
    apply List.Forall_nil.
  - simpl. repeat split; intros H; vm_compute in H; discriminate.
Defined.

(** X9.  Claim and release undo each other on the counters: when
    [assign_user] succeeds on a staff member whose counter is not negative
    and the store takes the write of the resolution, a
    [resolve_escalation] of that session right after it succeeds, leaves
    the session 'resolved', and every [current_sessions_count] is what it
    was before the assignment. *)
Theorem assign_then_resolve_restores_counters now db sid tid uid db1 ok notes :
  assign_user now db sid tid uid = (db1, Ok ok) →
  (∀ u, users db !! uid = Some u → 0 ≤ current_sessions_count u)%Z →
  (∀ s, sessions db !! sid = Some s →
     (∀ kind, session_metadata s ≠ meta_other kind)
     ∧ (session_metadata s = meta_falsy →
        ∀ n, notes = Some n → has_nul n = false)) →
  success (resolve_escalation db1 sid tid notes).2 = true
  ∧ count_of db1 uid = (fun c => c + 1)%Z <$> count_of db uid
  ∧ (∀ k, count_of (resolve_escalation db1 sid tid notes).1 k = count_of db k)
  ∧ status_of (resolve_escalation db1 sid tid notes).1 sid = Some st_resolved.
Proof.
  intros Hcall Hpos Hmeta.
  destruct (assign_user_effect now db sid tid uid)
    as [[Hfail _]|(s & u & _ & Hs & Ht & _ & Hu & _ & _ & Hdb1)];
    rewrite Hcall in *; [discriminate|]. simpl in Hdb1. subst db1.
  specialize (Hpos u Hu). destruct (Hmeta s Hs) as [Hkind Hnotes].
  set (db1 := update_user uid (set_count (current_sessions_count u + 1))
                (update_session sid (set_assigned uid now) db)).
  assert (sessions db1 !! sid = Some (set_assigned uid now s)) as Hs1.
  { unfold db1. rewrite sessions_update_user, sessions_update_session,
      decide_True by done. by rewrite Hs. }
  assert (users db1 !! uid = Some (set_count (current_sessions_count u + 1) u))
    as Hu1.
  { unfold db1. rewrite users_update_user, decide_True by done. simpl.
    by rewrite Hu. }
  assert (release_assignee (set_assigned uid now s) db1
          = update_user uid (set_count (current_sessions_count u)) db1) as Hrel.
  { unfold release_assignee, query_user_by_id.
    cbn [assigned_user_id set_assigned]. rewrite Hu1.
    cbn [current_sessions_count set_count].
    destruct (Z.ltb_spec 0 (current_sessions_count u + 1)); [|lia].
    f_equal. f_equal. lia. }
  destruct (resolved_metadata_accepts sid (set_assigned uid now s) notes)
    as [meta Hacc]; [exact Hkind | exact Hnotes |].
  destruct (resolve_escalation_cases db1 sid tid notes)
    as [[e Hfail]|(s1 & meta1 & Hs1' & _ & _ & _ & Hres)].
  { exfalso. unfold resolve_escalation in Hfail.
    rewrite (proj2 (query_session_Some db1 sid tid _) (conj Hs1 Ht)) in Hfail.
    rewrite decide_False in Hfail by (simpl; discriminate).
    rewrite Hacc in Hfail. discriminate Hfail. }
  rewrite Hs1 in Hs1'. injection Hs1' as <-. rewrite Hres, Hrel.
  cbn [fst snd success].
  split; [done|]. split.
  { unfold count_of. rewrite Hu1, Hu. done. }
  split.
  - intros k. unfold count_of.
    rewrite users_update_session, users_update_user.
    case_decide as Hk.
    + subst k. rewrite Hu1, Hu. done.
    + unfold db1. by rewrite users_update_user, decide_False.
  - unfold status_of. rewrite sessions_update_session, decide_True by done.
    rewrite sessions_update_user, Hs1. done.
Qed.

Lemma assign_then_resolve_restores_counters_witness :
  success (resolve_escalation (assign_user 20 db_last_slot "A" "T" "S1").1
             "A" "T" (Some "done")).2 = true
  ∧ count_of (assign_user 20 db_last_slot "A" "T" "S1").1 "S1" = Some 1
  ∧ count_of (resolve_escalation (assign_user 20 db_last_slot "A" "T" "S1").1
                "A" "T" (Some "done")).1 "S1" = Some 0
  ∧ count_of db_last_slot "S1" = Some 0.
Proof.
  destruct (assign_then_resolve_restores_counters 20 db_last_slot "A" "T" "S1"
              (assign_user 20 db_last_slot "A" "T" "S1").1
              (assign_ok 20 "A" "S1"
                 (chat "T" None st_pending, staff "T" "s1" online 1 0))
              (Some "done"))
    as (Hok & Hup & Hback & _).
  - vm_compute. reflexivity.
  - intros u Hu.
    assert (users db_last_slot !! "S1" = Some (staff "T" "s1" online 1 0))
      as Hknown by reflexivity.
    rewrite Hknown in Hu. injection Hu as <-. simpl. lia.
  - intros s Hs.
    assert (sessions db_last_slot !! "A" = Some (chat "T" None st_pending))
      as Hknown by reflexivity.
    rewrite Hknown in Hs. injection Hs as <-.
    split; [discriminate|]. intros _ n [= <-]. reflexivity.
  - split; [exact Hok|]. split; [exact Hup|].
    split; [rewrite (Hback "S1")|]; reflexivity.
Defined.

(** X10.  [resolve_escalation] fails with "Session not found" when the
    tenant has no session of that id and with "Session is not escalated"
    when the status is 'none'.  Past both guards it fails, with "Failed to
    resolve escalation" and nothing written, when the metadata of the
    session takes no entry or the notes cannot be stored; otherwise it
    succeeds, whether or not the assignee row exists: the session becomes
    'resolved' and keeps its assignee, reason and stamps, no other session
    changes, and the only [current_sessions_count] that changes is the one
    of the session's assignee, which goes down by one when it is
    positive. *)
Theorem resolve_escalation_guards db sid tid notes :
  ((∀ s, sessions db !! sid = Some s → s_tenant_id s ≠ tid) →
   resolve_escalation db sid tid notes = (db, Failure SessionNotFound))
  ∧ ∀ s, sessions db !! sid = Some s → s_tenant_id s = tid →
    (escalation_status s = st_none →
       resolve_escalation db sid tid notes = (db, Failure NotEscalated))
    ∧ (escalation_status s ≠ st_none →
       ((∃ kind, session_metadata s = meta_other kind)
        ∨ (session_metadata s = meta_falsy
           ∧ ∃ n, notes = Some n ∧ has_nul n = true) →
        ∃ e, resolve_escalation db sid tid notes
             = (db, Failure (ResolveFailed e)))
       ∧ ((∀ kind, session_metadata s ≠ meta_other kind) →
          (session_metadata s = meta_falsy →
           ∀ n, notes = Some n → has_nul n = false) →
          (resolve_escalation db sid tid notes).2
          = Ok {| r_session_id := sid; r_escalation_status := st_resolved |}
          ∧ (∃ s',
               sessions (resolve_escalation db sid tid notes).1 !! sid
               = Some s'
               ∧ escalation_status s' = st_resolved
               ∧ s_tenant_id s' = tid
               ∧ assigned_user_id s' = assigned_user_id s
               ∧ escalation_reason s' = escalation_reason s
               ∧ escalation_requested_at s' = escalation_requested_at s
               ∧ escalation_assigned_at s' = escalation_assigned_at s)
          ∧ (∀ k, k ≠ sid →
               sessions (resolve_escalation db sid tid notes).1 !! k
               = sessions db !! k)
          ∧ ∀ k,
              count_of (resolve_escalation db sid tid notes).1 k
              = (fun c => if decide (assigned_user_id s = Some k ∧ 0 < c)%Z
                          then (c - 1)%Z else c) <$> count_of db k)).
Proof.
  split.
  { intros Hno. apply query_session_None in Hno.
    unfold resolve_escalation. by rewrite Hno. }
  intros s Hs Ht.
  assert (query_session db sid tid = Some s) as Hq
    by by apply query_session_Some.
  split.
  { intros Hst. unfold resolve_escalation. rewrite Hq. by rewrite decide_True. }
  intros Hst. split.
  { intros Hrej.
    destruct (resolved_metadata_rejects sid s notes Hrej) as [e He].
    exists e. unfold resolve_escalation.
    by rewrite Hq, decide_False, He. }
  intros Hkind Hnotes.
  destruct (resolved_metadata_accepts sid s notes Hkind Hnotes) as [meta Hacc].
  unfold resolve_escalation. rewrite Hq, decide_False, Hacc by done.
  cbn [fst snd]. split; [done|]. split; [|split].
  - exists (set_metadata meta (set_resolved s)).
    rewrite sessions_update_session, decide_True by done.
    rewrite sessions_release_assignee, Hs. by rewrite <- Ht.
  - intros k Hk. rewrite sessions_update_session, decide_False by done.
    by rewrite sessions_release_assignee.
  - intros k. unfold count_of. rewrite users_update_session.
    destruct (release_assignee_effect s db)
      as [Hsame|(a & u & Hsa & Hu & Hpos & ->)].
    + rewrite Hsame. destruct (users db !! k) as [v|] eqn:Hv; [|done].
      simpl. case_decide as Hdec; [|done]. destruct Hdec as [Hsa Hpos].
      exfalso. unfold release_assignee, query_user_by_id in Hsame.
      rewrite Hsa, Hv in Hsame.
      destruct (Z.ltb_spec 0 (current_sessions_count v)); [|lia].
      assert (users (update_user k (set_count (current_sessions_count v - 1)) db)
                !! k = users db !! k) as Habs by by rewrite Hsame.
      rewrite users_update_user, decide_True, Hv in Habs by done.
      simpl in Habs. injection Habs as Habs.
      apply (f_equal current_sessions_count) in Habs. simpl in Habs. lia.
    + rewrite users_update_user. case_decide as Hk.
      * subst k. rewrite Hu. simpl. by rewrite decide_True.
      * destruct (users db !! k) as [v|]; [|done]. simpl.
        rewrite decide_False; [done|]. intros [Hsa' _]. congruence.
Qed.

Lemma resolve_escalation_guards_witness :
  (resolve_escalation db_reassign "X" "T2" None
   = (db_reassign, Failure SessionNotFound))
  ∧ (resolve_escalation db_scenario "A" "T" None
     = (db_scenario, Failure NotEscalated))
  ∧ (∃ e, resolve_escalation db_reassign "X" "T" (Some nul_notes)
          = (db_reassign, Failure (ResolveFailed e)))
  ∧ ((resolve_escalation db_reassign "X" "T" (Some "done")).2
     = Ok {| r_session_id := "X"; r_escalation_status := st_resolved |}
     ∧ status_of (resolve_escalation db_reassign "X" "T" (Some "done")).1 "X"
       = Some st_resolved
     ∧ count_of (resolve_escalation db_reassign "X" "T" (Some "done")).1 "SA"
       = Some 0
     ∧ count_of (resolve_escalation db_reassign "X" "T" (Some "done")).1 "SB"
       = Some 0).
Proof.
  split; [|split; [|split]].
  - apply (resolve_escalation_guards db_reassign "X" "T2").
    intros s Hs. vm_compute in Hs. injection Hs as <-. discriminate.
  - apply (proj2 (resolve_escalation_guards db_scenario "A" "T" None)
             (chat "T" None st_none)); reflexivity.
  - destruct (proj2 (resolve_escalation_guards db_reassign "X" "T"
                       (Some nul_notes))
                (chat "T" (Some "SA") st_assigned) eq_refl eq_refl)
      as [_ Hpast].
    destruct (Hpast ltac:(discriminate)) as [Hrej _].
    apply Hrej. right. split; [reflexivity|].
    exists nul_notes. split; reflexivity.
  - destruct (proj2 (resolve_escalation_guards db_reassign "X" "T"
                       (Some "done"))
                (chat "T" (Some "SA") st_assigned) eq_refl eq_refl)
      as [_ Hpast].
    destruct (Hpast ltac:(discriminate)) as [_ Hacc].
    destruct Hacc as (Hres & (s' & Hs' & Hst' & _) & _ & Hcount).
    + discriminate.
    + intros _ n [= <-]. reflexivity.
    + split; [exact Hres|]. split.
      { unfold status_of. rewrite Hs'. simpl. by rewrite Hst'. }
      split; [rewrite (Hcount "SA") | rewrite (Hcount "SB")]; reflexivity.
Defined.

(** ** More on the detector *)

Section DetectMore.
Context {lowering : StrLower}.

Lemma length_filter_app {A} (p : A → bool) (l1 l2 : list A) :
  length (List.filter p (l1 ++ l2))
  = (length (List.filter p l1) + length (List.filter p l2))%nat.
Proof. by rewrite List.filter_app, length_app. Qed.

Lemma filter_Forall2 {A} (R : A → A → Prop) (p q : A → bool) (l l' : list A) :
  Forall2 R l l' → (∀ a b, R a b → p a = q b) →
  Forall2 R (List.filter p l) (List.filter q l').
Proof.
  intros Hl Hpq. induction Hl as [|a b l l' Hab Hl IH]; [constructor|].
  cbn [List.filter]. rewrite (Hpq a b Hab).
  destruct (q b); [by constructor | done].
Qed.

Lemma Forall2_diag {A} (R : A → A → Prop) (l : list A) :
  (∀ a, R a a) → Forall2 R l l.
Proof. intros HR. induction l; by constructor. Qed.

Lemma str_lower_empty : str_lower "" = "".
Proof. by rewrite str_lower_ascii. Qed.

Lemma contains_empty hay : contains "" hay = true.
Proof. by destruct hay. Qed.

Lemma confidence_of_mono n m : (n ≤ m)%nat → (confidence_of n <= confidence_of m)%Q.
Proof.
  intros Hle. unfold confidence_of. apply Q.min_le_compat_r.
  unfold Qle; simpl. lia.
Qed.

Lemma confidence_of_pos n : (0 < confidence_of n)%Q ↔ (0 < n)%nat.
Proof.
  unfold confidence_of. split.
  - intros Hpos. apply Q.min_glb_lt_iff in Hpos as [Hpos _].
    unfold Qlt in Hpos. simpl in Hpos. lia.
  - intros Hn. apply Q.min_glb_lt; [|done]. unfold Qlt; simpl. lia.
Qed.

Lemma fields_agree_list (l : list string) :
  ((0 <? length l)%nat = true ↔ l ≠ [])
  ∧ ((0 <? length l)%nat = true
     ↔ is_Some (if (0 <? length l)%nat then Some (reason_of l) else None))
  ∧ ((0 <? length l)%nat = true ↔ (0 < confidence_of (length l))%Q).
Proof.
  rewrite confidence_of_pos, Nat.ltb_lt.
  destruct l as [|k l]; cbn [length].
  - rewrite (proj2 (Nat.ltb_ge 0 0)) by lia.
    split; [split; [lia|done]|].
    split; [split; [lia|intros [x Hx]; discriminate]|done].
  - rewrite (proj2 (Nat.ltb_lt 0 (S (length l)))) by lia.
    split; [split; [done|lia]|].
    split; [split; [intros _; by eexists|lia]|done].
Qed.

(** Two scans of ASCII text whose messages and custom keywords differ in
    the case of their letters only. *)
Lemma detected_keywords_same_letters message message' custom custom' :
  is_ascii message = true → is_ascii message' = true →
  ascii_lower message' = ascii_lower message →
  forallb is_ascii (default [] custom) = true →
  forallb is_ascii (default [] custom') = true →
  Forall2 (fun k k' => ascii_lower k' = ascii_lower k)
    (default [] custom) (default [] custom') →
  Forall2 (fun k k' => ascii_lower k' = ascii_lower k)
    (detected_keywords (detect_auto_escalation message custom))
    (detected_keywords (detect_auto_escalation message' custom')).
Proof.
  intros Hm Hm' Hlow Hc Hc' Hks.
  rewrite (detected_keywords_ascii message custom Hm Hc).
  rewrite (detected_keywords_ascii message' custom' Hm' Hc').
  apply filter_Forall2.
  - apply Forall2_app; [by apply Forall2_diag | exact Hks].
  - intros a b Hab. by rewrite Hab, Hlow.
Qed.

End DetectMore.

(** X11.  On ASCII text matching ignores the case of the letters on both
    sides.  Two messages that are equal once their capitals A..Z are
    lowered get the same dict; and when also the custom keywords are
    pairwise equal once lowered, the two calls match the keywords at the
    same positions, so the number of matches, the decision and the
    confidence are the same. *)
Theorem detection_ignores_case {lowering : StrLower} (message message' : string)
    (custom custom' : option (list string)) :
  is_ascii message = true → is_ascii message' = true →
  ascii_lower message' = ascii_lower message →
  forallb is_ascii (default [] custom) = true →
  forallb is_ascii (default [] custom') = true →
  Forall2 (fun k k' => ascii_lower k' = ascii_lower k)
    (default [] custom) (default [] custom') →
  let d := detect_auto_escalation message custom in
  let d' := detect_auto_escalation message' custom' in
  detect_auto_escalation message' custom = d
  ∧ Forall2 (fun k k' => ascii_lower k' = ascii_lower k)
      (detected_keywords d) (detected_keywords d')
  ∧ length (detected_keywords d') = length (detected_keywords d)
  ∧ should_escalate d' = should_escalate d
  ∧ confidence d' = confidence d.
Proof.
  intros Hm Hm' Hlow Hc Hc' Hks d d'.
  pose proof (detected_keywords_same_letters message message' custom custom'
                Hm Hm' Hlow Hc Hc' Hks) as Hsame.
  fold d d' in Hsame.
  assert (length (detected_keywords d') = length (detected_keywords d))
    as Hlen by (symmetry; by eapply Forall2_length).
  split.
  { unfold d.
    rewrite (detect_auto_escalation_eq message').
    rewrite (detect_auto_escalation_eq message).
    rewrite (detected_keywords_ascii message' custom Hm' Hc).
    rewrite (detected_keywords_ascii message custom Hm Hc).
    by rewrite Hlow. }
  split; [exact Hsame|]. split; [exact Hlen|].
  unfold d, d'. rewrite !should_escalate_eq, !confidence_eq.
  fold d d'. rewrite Hlen. done.
Qed.

Lemma detection_ignores_case_witness :
  detect_auto_escalation (lowering := ascii_only) "i NEED Help NOW" (Some ["Refund"])
  = detect_auto_escalation (lowering := ascii_only) "I need HELP now" (Some ["Refund"])
  ∧ should_escalate
      (detect_auto_escalation (lowering := ascii_only) "my Refund is LATE"
         (Some ["REFUND"]))
    = should_escalate
        (detect_auto_escalation (lowering := ascii_only) "MY refund IS late"
           (Some ["refund"])).
Proof.
  split.
  - apply (detection_ignores_case (lowering := ascii_only)
             "I need HELP now" "i NEED Help NOW"
             (Some ["Refund"]) (Some ["Refund"]));
      try reflexivity.
    repeat constructor.
  - apply (detection_ignores_case (lowering := ascii_only)
             "MY refund IS late" "my Refund is LATE"
             (Some ["refund"]) (Some ["REFUND"]));
      try reflexivity.
    repeat constructor.
Defined.

(** X12.  Custom keywords only add: the matches without custom keywords are
    a prefix of the matches with them, so custom keywords never turn an
    escalation off and never lower the confidence. *)
Theorem custom_keywords_only_add {lowering : StrLower} (message : string)
    (custom : option (list string)) :
  let base := detect_auto_escalation message None in
  let full := detect_auto_escalation message custom in
  let extra := List.filter (fun k => contains (str_lower k) (str_lower message))
                           (default [] custom) in
  detected_keywords full = (detected_keywords base ++ extra)%list
  ∧ should_escalate full = should_escalate base || (0 <? length extra)%nat
  ∧ (confidence base <= confidence full)%Q.
Proof.
  intros base full extra.
  assert (detected_keywords full = (detected_keywords base ++ extra)%list)
    as Hdet.
  { unfold full, base, extra. rewrite !detected_keywords_eq.
    change (default [] None) with (@nil string).
    by rewrite app_nil_r, List.filter_app. }
  split; [exact Hdet|]. split.
  - unfold full, base. rewrite !should_escalate_eq. fold full base.
    rewrite Hdet, length_app.
    destruct (length (detected_keywords base)), (length extra); done.
  - unfold full, base. rewrite !confidence_eq. fold full base.
    apply confidence_of_mono. rewrite Hdet, length_app. lia.
Qed.

(** X13.  The four entries of the dict agree: the detector escalates exactly
    when the match list is not empty, exactly when a reason is given, and
    exactly when the confidence is positive. *)
Theorem detection_fields_agree {lowering : StrLower} (message : string)
    (custom : option (list string)) :
  let d := detect_auto_escalation message custom in
  (should_escalate d = true ↔ detected_keywords d ≠ [])
  ∧ (should_escalate d = true ↔ is_Some (reason d))
  ∧ (should_escalate d = true ↔ (0 < confidence d)%Q).
Proof.
  intros d. unfold d.
  rewrite reason_eq, confidence_eq, should_escalate_eq.
  apply fields_agree_list.
Qed.

(** X14.  An empty custom keyword matches every message: with [""] among
    the custom keywords the detector always escalates. *)
Theorem empty_keyword_always_escalates {lowering : StrLower} (message : string)
    (ks : list string) :
  "" ∈ ks →
  should_escalate (detect_auto_escalation message (Some ks)) = true
  ∧ "" ∈ detected_keywords (detect_auto_escalation message (Some ks)).
Proof.
  intros Hin.
  assert ("" ∈ detected_keywords (detect_auto_escalation message (Some ks)))
    as Hdet.
  { rewrite detected_keywords_eq, list_elem_of_In, filter_In,
      <- list_elem_of_In. split.
    - apply elem_of_app. by right.
    - rewrite str_lower_empty. apply contains_empty. }
  split; [|done].
  rewrite should_escalate_eq.
  destruct (detected_keywords _); [by apply elem_of_nil in Hdet|done].
Qed.

Lemma empty_keyword_always_escalates_witness :
  should_escalate
    (detect_auto_escalation (lowering := ascii_only) "thanks, bye"
       (Some ["refund"; ""]))
  = true.
Proof.
  apply (empty_keyword_always_escalates (lowering := ascii_only)
           "thanks, bye" ["refund"; ""]).
  right. left.
Defined.

(** ** The queue *)

Section QueueFacts.

#[local] Instance by_requested_desc_total : Total by_requested_desc.
Proof.
  intros a b. unfold by_requested_desc, requested_desc.
  destruct (escalation_requested_at (a.2)) as [x|],
           (escalation_requested_at (b.2)) as [y|]; auto.
  destruct (Z.leb_spec y x); [by left|]. right. apply Z.leb_le. lia.
Qed.

#[local] Instance by_requested_desc_transitive : Transitive by_requested_desc.
Proof.
  intros a b c. unfold by_requested_desc, requested_desc.
  destruct (escalation_requested_at (a.2)) as [x|],
           (escalation_requested_at (b.2)) as [y|],
           (escalation_requested_at (c.2)) as [z|]; try done.
  rewrite !Z.leb_le. lia.
Qed.

Lemma in_queue_true tid status (r : string * ChatSession) :
  in_queue tid status r = true ↔
  s_tenant_id (r.2) = tid ∧ escalation_status (r.2) ≠ st_none
  ∧ match status with
    | Some st => escalation_status (r.2) = st
    | None => True
    end.
Proof.
  unfold in_queue. rewrite !andb_true_iff, !bool_decide_eq_true.
  destruct status as [st|]; [rewrite bool_decide_eq_true|]; tauto.
Qed.

Lemma queue_elem db tid status (r : string * ChatSession) :
  r ∈ escalations (get_escalation_queue db tid status) ↔
  sessions db !! r.1 = Some (r.2) ∧ in_queue tid status r = true.
Proof.
  unfold get_escalation_queue; cbn [escalations].
  rewrite merge_sort_Permutation, list_elem_of_In, filter_In,
    <- list_elem_of_In.
  destruct r as [k s]. by rewrite elem_of_map_to_list.
Qed.

Lemma queue_length db tid status :
  length (escalations (get_escalation_queue db tid status))
  = length (List.filter (in_queue tid status) (map_to_list (sessions db))).
Proof.
  unfold get_escalation_queue; cbn [escalations].
  apply Permutation_length, merge_sort_Permutation.
Qed.

Lemma length_filter_split {A} (p p1 p2 p3 : A → bool) (l : list A) :
  (∀ r, (if p r then 1 else 0)
        = ((if p1 r then 1 else 0) + (if p2 r then 1 else 0)
           + (if p3 r then 1 else 0)))%nat →
  length (List.filter p l)
  = (length (List.filter p1 l) + length (List.filter p2 l)
     + length (List.filter p3 l))%nat.
Proof.
  intros Hsplit. induction l as [|r l IH]; [done|].
  cbn [List.filter]. specialize (Hsplit r).
  destruct (p r), (p1 r), (p2 r), (p3 r); cbn [length]; lia.
Qed.

Lemma length_filter_ext {A} (p q : A → bool) (l : list A) :
  (∀ r, p r = q r) → length (List.filter p l) = length (List.filter q l).
Proof. intros Heq. by rewrite (List.filter_ext p q Heq). Qed.

Lemma in_queue_split tid r :
  ((if in_queue tid None r then 1 else 0)
   = (if of_status tid st_pending r then 1 else 0)
     + (if of_status tid st_assigned r then 1 else 0)
     + (if of_status tid st_resolved r then 1 else 0))%nat.
Proof.
  unfold in_queue, of_status.
  destruct (bool_decide (s_tenant_id (r.2) = tid)); [|done].
  destruct (escalation_status (r.2)); reflexivity.
Qed.

Lemma in_queue_one tid st r :
  in_queue tid (Some st) r
  = if decide (st = st_none) then false else of_status tid st r.
Proof.
  unfold in_queue, of_status.
  destruct (bool_decide (s_tenant_id (r.2) = tid)); [|by case_decide].
  destruct (escalation_status (r.2)), st; reflexivity.
Qed.

Lemma count_status_eq db tid st :
  count_status db tid st
  = length (List.filter (of_status tid st) (map_to_list (sessions db))).
Proof. reflexivity. Qed.

Lemma queue_total_eq db tid :
  queue_total db tid
  = length (List.filter (in_queue tid None) (map_to_list (sessions db))).
Proof.
  unfold queue_total.
  cbn [pending_count assigned_count resolved_count get_escalation_queue].
  rewrite !count_status_eq. symmetry.
  apply length_filter_split, in_queue_split.
Qed.

Lemma queue_sorted db tid status :
  StronglySorted by_requested_desc
    (escalations (get_escalation_queue db tid status)).
Proof.
  unfold get_escalation_queue; cbn [escalations].
  apply StronglySorted_merge_sort; apply _.
Qed.

End QueueFacts.

(** X15.  The queue lists exactly the tenant's sessions whose status is not
    'none' (and equals the requested status when one is given), newest
    request first; no row of another tenant is ever listed. *)
Theorem queue_lists_tenant_escalations (db : DB) (tid : string)
    (status : option EscalationStatus) :
  (∀ k s, (k, s) ∈ escalations (get_escalation_queue db tid status) ↔
          sessions db !! k = Some s
          ∧ s_tenant_id s = tid ∧ escalation_status s ≠ st_none
          ∧ match status with
            | Some st => escalation_status s = st
            | None => True
            end)
  ∧ NoDup (escalations (get_escalation_queue db tid status)).*1
  ∧ StronglySorted by_requested_desc
      (escalations (get_escalation_queue db tid status)).
Proof.
  split; [|split].
  - intros k s. by rewrite queue_elem, in_queue_true.
  - unfold get_escalation_queue; cbn [escalations].
    rewrite merge_sort_Permutation.
    apply NoDup_keys_filter, NoDup_fst_map_to_list.
  - apply queue_sorted.
Qed.

(** X16.  The three counters describe the list: without a status filter
    the list has [pending_count + assigned_count + resolved_count] rows;
    with the filter 'pending', 'assigned' or 'resolved' it has as many rows
    as the matching counter; with the filter 'none' it is empty.  The
    counters do not depend on the filter. *)
Theorem queue_counts_match_list (db : DB) (tid : string) :
  let q := get_escalation_queue db tid in
  length (escalations (q None))
  = (pending_count (q None) + assigned_count (q None)
     + resolved_count (q None))%nat
  ∧ length (escalations (q (Some st_pending))) = pending_count (q None)
  ∧ length (escalations (q (Some st_assigned))) = assigned_count (q None)
  ∧ length (escalations (q (Some st_resolved))) = resolved_count (q None)
  ∧ escalations (q (Some st_none)) = []
  ∧ ∀ status,
      pending_count (q status) = pending_count (q None)
      ∧ assigned_count (q status) = assigned_count (q None)
      ∧ resolved_count (q status) = resolved_count (q None).
Proof.
  intros q. unfold q.
  assert (∀ st, st ≠ st_none →
            length (escalations (get_escalation_queue db tid (Some st)))
            = count_status db tid st) as Hone.
  { intros st Hst. rewrite queue_length, count_status_eq.
    apply length_filter_ext. intros r. rewrite in_queue_one.
    by rewrite decide_False. }
  split.
  { rewrite queue_length. cbn [pending_count assigned_count resolved_count
                               get_escalation_queue].
    rewrite !count_status_eq.
    apply length_filter_split, in_queue_split. }
  split; [by apply Hone|]. split; [by apply Hone|]. split; [by apply Hone|].
  split; [|done].
  apply length_zero_iff_nil. rewrite queue_length.
  rewrite (length_filter_ext _ (fun _ => false)).
  - induction (map_to_list (sessions db)); done.
  - intros r. rewrite in_queue_one. by rewrite decide_True.
Qed.

(** X17.  Only a successful [escalate_session] makes the queue of its
    tenant grow, by one session; [assign_user], [resolve_escalation] and
    failed calls leave the size of every tenant's queue as it was. *)
Theorem queue_grows_only_by_escalate (o : Op) (db : DB) (tid : string) :
  queue_total (exec o db) tid
  = (queue_total db tid
     + if is_escalate o && exec_success o db && bool_decide (op_tenant o = tid)
       then 1 else 0)%nat.
Proof.
  rewrite !queue_total_eq.
  destruct (exec_cases o db)
    as [[Hfail ->]|(s & f & Hok & Hs & Ht & Hten & Hrank & Hsess & _)].
  { rewrite Hfail, andb_false_r. simpl. lia. }
  rewrite Hok, andb_true_r, Hsess.
  pose proof (length_filter_alter (in_queue tid None) (sessions db)
                (op_session o) s f Hs) as Hlen.
  destruct (exec_status o db s Hok Hs) as [Hnone Hafter_st].
  assert (sessions (exec o db) !! op_session o = Some (f s)) as Hfs.
  { rewrite Hsess, lookup_alter, decide_True by done. by rewrite Hs. }
  specialize (Hafter_st (f s) Hfs).
  assert (in_queue tid None (op_session o, s)
          = bool_decide (op_tenant o = tid) && negb (is_escalate o)) as Hbefore.
  { unfold in_queue. cbn [snd]. rewrite Ht, andb_true_r. f_equal.
    destruct (is_escalate o).
    - apply bool_decide_eq_false_2. intros Hne. apply Hne. by apply Hnone.
    - apply bool_decide_eq_true_2. intros Heq. apply Hnone in Heq. done. }
  assert (in_queue tid None (op_session o, f s) = bool_decide (op_tenant o = tid))
    as Hafter.
  { unfold in_queue. cbn [snd]. rewrite Hten, Ht, andb_true_r.
    by rewrite (bool_decide_eq_true_2 _ Hafter_st), andb_true_r. }
  rewrite Hbefore, Hafter in Hlen.
  destruct (is_escalate o), (bool_decide (op_tenant o = tid));
    simpl in *; lia.
Qed.

(** ** The endpoints *)

Section Endpoints.
Context {lowering : StrLower} {wording : ExceptionText}.

Lemma already_escalated_message st :
  contains "already escalated"
    (str_lower (error_message (AlreadyEscalated st)))
  = true.
Proof.
  rewrite str_lower_ascii by (destruct st; reflexivity).
  destruct st; vm_compute; reflexivity.
Qed.

Lemma staff_entry_elem (l : list (string * User)) uid u b :
  {| se_user_id := uid; se_user := u; se_available := b |}
  ∈ List.map
      (fun r : string * User =>
         {| se_user_id := r.1; se_user := r.2;
            se_available :=
              is_available (supporter_status (r.2))
              && (current_sessions_count (r.2) <? max_concurrent_sessions (r.2))%Z |})
      l
  ↔ (uid, u) ∈ l
    ∧ b = is_available (supporter_status u)
          && (current_sessions_count u <? max_concurrent_sessions u)%Z.
Proof.
  rewrite list_elem_of_In, in_map_iff. split.
  - intros ([k v] & Heq & Hin). simpl in Heq. injection Heq as -> -> <-.
    split; [by apply list_elem_of_In|done].
  - intros [Hin ->]. exists (uid, u). split; [done|by apply list_elem_of_In].
Qed.

End Endpoints.

(** X18.  The staff list and the candidate list agree: for a known tenant,
    GET /staff lists exactly the supporters of the tenant, and the entries
    it flags as available are exactly the rows [find_available_staff]
    returns; [total] is the length of the list. *)
Theorem staff_flags_match_candidates (tenants : gset string) (db : DB)
    (tid : string) :
  tid ∈ tenants →
  ∃ entries,
    get_staff tenants db tid = inr (entries, length entries)
    ∧ (∀ uid u b,
         {| se_user_id := uid; se_user := u; se_available := b |} ∈ entries →
         users db !! uid = Some u ∧ u_tenant_id u = tid ∧ role u = supporter)
    ∧ (∀ uid u,
         users db !! uid = Some u → u_tenant_id u = tid → role u = supporter →
         ∃ b, {| se_user_id := uid; se_user := u; se_available := b |} ∈ entries)
    ∧ (∀ uid u,
         {| se_user_id := uid; se_user := u; se_available := true |} ∈ entries
         ↔ (uid, u) ∈ find_available_staff db tid).
Proof.
  intros Hten. unfold get_staff. rewrite decide_True by done.
  eexists. split; [by rewrite length_map|].
  assert (∀ uid u,
            (uid, u) ∈ List.filter
                (fun r : string * User =>
                   bool_decide (u_tenant_id (r.2) = tid)
                   && bool_decide (role (r.2) = supporter))
                (map_to_list (users db))
            ↔ users db !! uid = Some u ∧ u_tenant_id u = tid
              ∧ role u = supporter) as Hstaff.
  { intros uid u. rewrite list_elem_of_In, filter_In, <- list_elem_of_In,
      elem_of_map_to_list. simpl.
    rewrite andb_true_iff, !bool_decide_eq_true. tauto. }
  split; [|split].
  - intros uid u b [Hin _]%staff_entry_elem. by apply Hstaff.
  - intros uid u Hu Ht Hr. eexists. apply staff_entry_elem.
    split; [by apply Hstaff|done].
  - intros uid u. rewrite staff_entry_elem, Hstaff.
    rewrite find_available_staff_elem. simpl. unfold eligible.
    rewrite !andb_true_iff, !bool_decide_eq_true. split.
    + intros [(Hu & Ht & Hr) Hb]. symmetry in Hb.
      apply andb_true_iff in Hb as [? ?]. done.
    + intros (Hu & ((Ht & Hr) & Hav) & Hlt). by rewrite Hav, Hlt.
Qed.

Lemma staff_flags_match_candidates_witness :
  ∃ entries,
    get_staff {["T"]} db_scenario "T" = inr (entries, length entries)
    ∧ ({| se_user_id := "S1"; se_user := staff "T" "s1" online 1 0;
          se_available := true |} ∈ entries).
Proof.
  destruct (staff_flags_match_candidates {["T"]} db_scenario "T")
    as (entries & Hcall & _ & _ & Hflag).
  { by apply elem_of_singleton. }
  exists entries. split; [done|]. apply Hflag.
  apply find_available_staff_elem. split; reflexivity.
Defined.

(** X19.  A caller who is a supporter and not an admin resolves only sessions
    assigned to them: when the session's assignee, as text, is not the
    caller's [sub], the endpoint answers 403 and nothing is written; this
    includes every session without an assignee (unless [sub] is the text
    "None"). *)
Theorem supporter_resolves_own_sessions_only {wording : ExceptionText}
    (tenants : gset string) (db : DB) (tid sid : string)
    (roles : list string) (sub : option string)
    (notes : option string) (s : ChatSession) :
  tid ∈ tenants → sessions db !! sid = Some s →
  "supporter" ∈ roles → "admin" ∉ roles →
  sub ≠ Some (str_of_assignee (assigned_user_id s)) →
  resolve_endpoint tenants db tid roles sub sid notes
  = (db, inl (HTTP 403 "Supporters can only resolve sessions assigned to them")).
Proof.
  intros Hten Hs Hsup Hadm Hsub. unfold resolve_endpoint.
  rewrite decide_True by done. rewrite Hs.
  unfold supporter_only.
  rewrite (bool_decide_eq_true_2 _ Hsup), (bool_decide_eq_false_2 _ Hadm).
  rewrite bool_decide_eq_false_2 by congruence. done.
Qed.

Lemma supporter_resolves_own_sessions_only_witness :
  resolve_endpoint (wording := plain_exceptions) {["T"]} db_reassign "T"
    ["supporter"] (Some "SB") "X" None
  = (db_reassign,
     inl (HTTP 403 "Supporters can only resolve sessions assigned to them")).
Proof.
  apply (supporter_resolves_own_sessions_only (wording := plain_exceptions)
           _ _ _ _ _ _ _ (chat "T" (Some "SA") st_assigned)).
  - by apply elem_of_singleton.
  - reflexivity.
  - left.
  - intros H. apply list_elem_of_singleton in H. discriminate.
  - simpl. discriminate.
Defined.

(** X20.  The resolve endpoint either answers with an error and writes
    nothing, or returns the row of the session as it now is in the store,
    in status 'resolved'. *)
Theorem resolve_endpoint_all_or_nothing {wording : ExceptionText}
    (tenants : gset string) (db : DB) (tid sid : string)
    (roles : list string) (sub : option string) (notes : option string) :
  match (resolve_endpoint tenants db tid roles sub sid notes).2 with
  | inl _ => (resolve_endpoint tenants db tid roles sub sid notes).1 = db
  | inr row =>
      sessions (resolve_endpoint tenants db tid roles sub sid notes).1 !! sid
      = Some row
      ∧ escalation_status row = st_resolved
      ∧ s_tenant_id row = tid
  end.
Proof.
  unfold resolve_endpoint. case_decide; [|done].
  destruct (sessions db !! sid) as [s|] eqn:Hs; [|done].
  destruct (_ && _); [done|].
  destruct (resolve_escalation_effect db sid tid notes)
    as [[Hfail Hdb]|(s0 & meta & Hok & Hs0 & Ht & Hst & _ & Hdb)].
  - destruct (resolve_escalation db sid tid notes) as [db' [ok|e]];
      simpl in *; [discriminate|done].
  - destruct (resolve_escalation db sid tid notes) as [db' [ok|e]];
      simpl in *; [|discriminate].
    subst db'. rewrite sessions_update_session, decide_True by done.
    rewrite sessions_release_assignee, Hs0. simpl. done.
Qed.

(** X21.  The public endpoint on a session the tenant owns, for a known
    tenant and matching ids.  A session that is already escalated gets a
    success answer with its current status and the message for it, and
    nothing is written, whatever the reason.  A session that is not
    escalated is escalated when the reason fits the column: the answer is
    a success with the new status, 'pending' or 'assigned', which is the
    status of the row.  When the reason does not fit the column nothing is
    written, and the answer is HTTP 400 with the error text of the
    service, or, if that text contains "already escalated", a success with
    status 'none'. *)
Theorem public_escalate_known_session {lowering : StrLower}
    {wording : ExceptionText} (tenants : gset string)
    (now now' : Z) (db : DB) (tid sid why : string) (s : ChatSession) :
  tid ∈ tenants → sessions db !! sid = Some s → s_tenant_id s = tid →
  (escalation_status s ≠ st_none →
     public_escalate_session tenants now now' db tid sid sid why
     = (db, inr {| p_success := true;
                   p_session_id := sid;
                   p_escalation_status := escalation_status s;
                   p_message := status_message (escalation_status s) |}))
  ∧ (escalation_status s = st_none →
     (∀ stored, varchar REASON_WIDTH why = Some stored →
        ∃ db' resp,
          public_escalate_session tenants now now' db tid sid sid why
          = (db', inr resp)
          ∧ p_success resp = true
          ∧ p_session_id resp = sid
          ∧ (p_escalation_status resp = st_pending
             ∨ p_escalation_status resp = st_assigned)
          ∧ status_of db' sid = Some (p_escalation_status resp)
          ∧ escalation_reason <$> sessions db' !! sid = Some (Some stored))
     ∧ (varchar REASON_WIDTH why = None →
        let text := "Failed to escalate session: "
                    ++ str_exception (StatementError sid [why]) in
        public_escalate_session tenants now now' db tid sid sid why
        = (db,
           if contains "already escalated" (str_lower text)
           then inr {| p_success := true;
                       p_session_id := sid;
                       p_escalation_status := st_none;
                       p_message := status_message st_none |}
           else inl (HTTP 400 text)))).
Proof.
  intros Hten Hs Ht.
  assert (query_session db sid tid = Some s) as Hq
    by by apply query_session_Some.
  unfold public_escalate_session.
  rewrite decide_True by done.
  rewrite decide_False by (intros H; by apply H).
  rewrite Hq. split; [|intros Hnone; split].
  - intros Hst. unfold escalate_session. rewrite Hq, decide_True by done.
    by rewrite already_escalated_message.
  - intros stored Hwhy.
    destruct (escalated_columns_accepts sid s why false None stored Hwhy)
      as [meta Hcols]; [discriminate|].
    rewrite (escalate_session_passed _ _ _ _ _ _ _ _ s stored meta
               Hq Hnone Hcols).
    destruct (find_available_staff db tid) as [|best rest].
    + eexists _, _. split; [reflexivity|].
      unfold status_of.
      rewrite sessions_update_session, decide_True, Hs by done.
      cbn. split; [done|]. split; [done|]. split; [by left|]. done.
    + eexists _, _. split; [reflexivity|].
      unfold status_of.
      rewrite sessions_assign_commit, decide_True by done.
      rewrite sessions_update_session, decide_True, Hs by done.
      cbn. split; [done|]. split; [done|]. split; [by right|]. done.
  - intros Hwhy. cbv zeta.
    assert (escalated_columns sid s why false None
            = inl (StatementError sid [why])) as He
      by (unfold escalated_columns; by rewrite Hwhy).
    unfold escalate_session.
    rewrite Hq, decide_False by (rewrite Hnone; intros Hne; by apply Hne).
    rewrite He. cbn [error_message]. rewrite Hnone.
    by destruct (contains _ _).
Qed.

Lemma public_escalate_known_session_witness :
  (public_escalate_session (lowering := ascii_only)
         (wording := plain_exceptions)
     {["T"]} 30 31 db_reassign "T" "X" "X" long_reason
   = (db_reassign,
      inr {| p_success := true;
             p_session_id := "X";
             p_escalation_status := st_assigned;
             p_message := status_message st_assigned |}))
  ∧ (∃ db' resp,
       public_escalate_session (lowering := ascii_only)
         (wording := plain_exceptions)
         {["T"]} 30 31 db_no_candidate "T" "A" "A" "please"
       = (db', inr resp)
       ∧ p_escalation_status resp = st_pending
       ∧ status_of db' "A" = Some st_pending)
  ∧ (public_escalate_session (lowering := ascii_only)
         (wording := plain_exceptions)
       {["T"]} 30 31 db_no_candidate "T" "A" "A" long_reason
     = (db_no_candidate,
        inl (HTTP 400 "Failed to escalate session: statement rejected"))).
Proof.
  split; [|split].
  - apply (public_escalate_known_session (lowering := ascii_only)
             (wording := plain_exceptions) {["T"]} 30 31 db_reassign
             "T" "X" long_reason (chat "T" (Some "SA") st_assigned));
      [by apply elem_of_singleton | reflexivity | reflexivity | discriminate].
  - destruct (public_escalate_known_session (lowering := ascii_only)
                (wording := plain_exceptions) {["T"]} 30 31 db_no_candidate
                "T" "A" "please" (chat "T" None st_none))
      as [_ Hfresh];
      [by apply elem_of_singleton | reflexivity | reflexivity |].
    destruct (Hfresh eq_refl) as [Hfits _].
    destruct (Hfits "please" eq_refl)
      as (db' & resp & Hcall & _ & _ & Hst & Hrow & _).
    exists db', resp. split; [exact Hcall|].
    vm_compute in Hcall. injection Hcall as <- <-.
    split; reflexivity.
  - destruct (public_escalate_known_session (lowering := ascii_only)
                (wording := plain_exceptions) {["T"]} 30 31 db_no_candidate
                "T" "A" long_reason (chat "T" None st_none))
      as [_ Hfresh];
      [by apply elem_of_singleton | reflexivity | reflexivity |].
    destruct (Hfresh eq_refl) as [_ Hlong].
    assert (varchar REASON_WIDTH long_reason = None) as Hwide
      by (vm_compute; reflexivity).
    rewrite (Hlong Hwide). reflexivity.
Defined.

(** X22.  From exact counters within their bounds, and as long as no
    assigned session is reassigned and no resolved session is resolved
    again, no staff member ever serves more sessions than
    [max_concurrent_sessions]. *)
Theorem never_more_sessions_than_max (ops : list Op) (db : DB)
    (uid : string) (u : User) :
  counters_consistent db → assignee_tracks_status db → load_bound db →
  all_first_time ops db →
  users (run ops db) !! uid = Some u →
  (Z.of_nat (length (sessions_assigned_to (run ops db) uid))
   ≤ max_concurrent_sessions u)%Z.
Proof.
  intros Hc Htr Hb Hall Hu.
  destruct (run_consistent ops db Hc Htr Hall) as [Hc' _].
  pose proof (run_load_bound ops db Hb uid u Hu) as Hrow. simpl in Hrow.
  rewrite <- (Hc' uid u Hu). lia.
Qed.

Lemma never_more_sessions_than_max_witness :
  (Z.of_nat
     (length (sessions_assigned_to
                (run [ Assign 20 "A" "T" "S1"; Assign 21 "B" "T" "S1" ]
                     db_last_slot) "S1"))
   ≤ 1)%Z.
Proof.
  apply (never_more_sessions_than_max
           [ Assign 20 "A" "T" "S1"; Assign 21 "B" "T" "S1" ] db_last_slot
           "S1" (staff "T" "s1" online 1 1)).
  - apply (map_Forall_to_list
             (fun uid u => current_sessions_count u
                = Z.of_nat (length (sessions_assigned_to db_last_slot uid)))).
    vm_compute. repeat constructor.
  - apply map_Forall_to_list. vm_compute.
    repeat (apply List.Forall_cons;
            [split; [intros H; discriminate H | intros [x Hx]; discriminate Hx]|]).
    apply List.Forall_nil.
  - apply map_Forall_to_list. vm_compute. repeat constructor; discriminate.
  - simpl. repeat split; intros H; vm_compute in H; discriminate.
  - reflexivity.
Defined.

(** ** Interleaved requests and the load bound *)

Section Schedules.

Lemma step_keeps_bound now db r :
  load_bound db → in_flight_ok db r →
  load_bound (step now db r).1 ∧ in_flight_ok (step now db r).1 (step now db r).2
  ∧ ∀ r', in_flight_ok db r' → in_flight_ok (step now db r).1 r'.
Proof.
  intros Hb Hr. destruct r as [sid tid uid | sid uid rows | res];
    cbn [step].
  - destruct (assign_check db sid tid uid) as [[s u]|e] eqn:Hc; cbn [fst snd];
      [|done].
    split; [done|]. split; [|done].
    apply assign_check_Ok in Hc as (_ & _ & Hq & _ & Hlt).
    apply query_supporter_Some in Hq as (Hu & _).
    exists u. pose proof (Hb uid u Hu) as Hrow. simpl in Hrow.
    cbn [snd]. split; [done|]. split; [done|]. lia.
  - destruct Hr as (u0 & Hu0 & Hmax & Hrange). cbn [fst snd].
    split; [|split; [done|]].
    + intros k v. rewrite users_assign_commit. case_decide as Hk.
      * subst k. rewrite Hu0. intros [= <-]. simpl. lia.
      * apply Hb.
    + intros r' Hr'. destruct r' as [| sid' uid' rows' |]; [done| |done].
      destruct Hr' as (u1 & Hu1 & Hmax1 & Hrange1). cbn [in_flight_ok].
      rewrite users_assign_commit. case_decide as Hk.
      * subst uid'. rewrite Hu0. rewrite Hu0 in Hu1. injection Hu1 as <-.
        eexists. split; [done|]. simpl. done.
      * by exists u1.
  - done.
Qed.

Lemma run_schedule_keeps_bound now sched db reqs :
  load_bound db → Forall (in_flight_ok db) reqs →
  load_bound (run_schedule now sched db reqs).1.
Proof.
  revert db reqs. induction sched as [|i sched IH]; intros db reqs Hb Hreqs;
    [done|].
  simpl. destruct (reqs !! i) as [r|] eqn:Hi; [|by apply IH].
  assert (in_flight_ok db r) as Hr.
  { rewrite Forall_forall in Hreqs. apply Hreqs.
    by apply list_elem_of_lookup_2 in Hi. }
  destruct (step_keeps_bound now db r Hb Hr) as (Hb' & Hr' & Hothers).
  destruct (step now db r) as [db' r']. simpl in *.
  apply IH; [done|].
  apply Forall_insert; [|done].
  eapply Forall_impl; [exact Hreqs|]. done.
Qed.

End Schedules.

(** X23.  The race cannot push a counter over its maximum: whatever the
    interleaving of the reads and writes of any number of [assign_user]
    requests, a store whose counters are within their bounds stays so. *)
Theorem interleaving_keeps_load_bound (now : Z) (schedule : list nat)
    (db : DB) (calls : list (string * string * string)) :
  load_bound db →
  load_bound
    (run_schedule now schedule db
       ((fun c : string * string * string => Start (c.1.1) (c.1.2) (c.2))
          <$> calls)).1.
Proof.
  intros Hb. apply run_schedule_keeps_bound; [done|].
  apply Forall_fmap, Forall_forall. done.
Qed.

Lemma interleaving_keeps_load_bound_witness :
  load_bound
    (run_schedule 20 [0; 1; 0; 1]%nat db_last_slot
       ((fun c : string * string * string => Start (c.1.1) (c.1.2) (c.2))
          <$> [("A", "T", "S1"); ("B", "T", "S1")])).1.
Proof.
  apply interleaving_keeps_load_bound.
  apply map_Forall_to_list. vm_compute. repeat constructor; discriminate.
Defined.
